(** * Heltec ESP32 LoRa V4 sketches: the GNSS bring-up debugger and the
      GPS display demo, embedded and verified.

    [Debug_GNSS] embeds src/examples/Debug_GNSS.cpp and [GPSwithOLED]
    embeds src/examples/GPSwithOLED.cpp.  The sketches talk to hardware
    through the Arduino core ([Serial], [Serial1], [millis], [delay], pins),
    the TinyGPS++ parser and the SSD1306 display driver; those are outside
    the repository and appear here as the environment: what the sketch sends
    is recorded in a trace, what it receives comes from a script. *)

From Stdlib Require Import ZArith List String Ascii Bool Lia.
From stdpp Require Import base list.
Import ListNotations.

Local Open Scope Z_scope.

(** ** Fixed-width integers of the target (32-bit [int], [uint32_t], [uint8_t]) *)

Definition to_uint32 (n : Z) : Z := n mod 2 ^ 32.
Definition to_uint8 (n : Z) : Z := n mod 2 ^ 8.

(** Conversion to a 32-bit two's complement [int]. *)
Definition to_int32 (n : Z) : Z := (n + 2 ^ 31) mod 2 ^ 32 - 2 ^ 31.

Definition INT_MAX : Z := 2 ^ 31 - 1.

(** Unsigned 32-bit subtraction, as in [millis() - last]. *)
Definition sub32 (a b : Z) : Z := to_uint32 (a - b).

(** ** Number printing of the Arduino core

    [Print::printNumber(n, base)] fills a buffer of [8 * sizeof(long) + 1]
    characters from its end: [do { c = n % base; n /= base;
    *--str = c < 10 ? c + '0' : c + 'A' - 10; } while (n);]. *)

Definition digit_char (c : Z) : ascii :=
  ascii_of_N (Z.to_N (if c <? 10 then c + 48 else c + 65 - 10)).

Fixpoint printNumber_loop (room : nat) (n base : Z) (str : string) : string :=
  match room with
  | O => str
  | S room' =>
      let c := n mod base in
      let n' := n / base in
      let str' := String (digit_char c) str in
      if n' =? 0 then str' else printNumber_loop room' n' base str'
  end.

Definition printNumber (n base : Z) : string :=
  printNumber_loop 32 n (if base <? 2 then 10 else base) EmptyString.

Definition HEX : Z := 16.
Definition DEC : Z := 10.

(** [Print::print(long n, int base = DEC)], used for [int] arguments. *)
Definition print_long (n : Z) : string :=
  if n <? 0 then String "-" (printNumber (- n) DEC) else printNumber n DEC.

(** A string of decimal digits read as a number: what a person reading the
    serial console makes of it. *)
Fixpoint dec_value (s : string) : Z :=
  match s with
  | EmptyString => 0
  | String c s' =>
      (Z.of_N (N_of_ascii c) - 48) * 10 ^ Z.of_nat (String.length s') +
      dec_value s'
  end.

(** ** Sketches as state passing with failure

    A sketch runs on a state [S]: its own variables and its environment.
    [None] is a run that cannot go on. *)

Definition M (S A : Type) : Type := S -> option (A * S).

Definition ret {S A} (a : A) : M S A := fun s => Some (a, s).

Definition bind {S A B} (m : M S A) (k : A -> M S B) : M S B :=
  fun s => match m s with
           | Some (a, s') => k a s'
           | None => None
           end.

Definition fault {S A} : M S A := fun _ => None.
Definition get {S A} (field : S -> A) : M S A := fun s => Some (field s, s).
Definition modify {S} (f : S -> S) : M S unit := fun s => Some (tt, f s).
Definition when {S} (c : bool) (m : M S unit) : M S unit :=
  if c then m else ret tt.

Declare Scope sketch_scope.
Delimit Scope sketch_scope with sketch.
Notation "x <- m ;; k" := (bind m (fun x => k))
  (at level 100, m at next level, k at level 200, right associativity)
  : sketch_scope.
Notation "m ;; k" := (bind m (fun _ => k))
  (at level 100, k at level 200, right associativity) : sketch_scope.
Local Open Scope sketch_scope.

(** * The GNSS bring-up debugger (src/examples/Debug_GNSS.cpp) *)

Module Debug_GNSS.

Definition VGNSS_CTRL : Z := 34.
Definition GNSS_WAKE : Z := 40.
Definition GNSS_RST : Z := 42.

Definition RXA : Z := 39.
Definition TXA : Z := 38.
Definition RXB : Z := 38.
Definition TXB : Z := 39.

Definition HIGH : bool := true.
Definition LOW : bool := false.

(** What the sketch does to its environment, and what it reads from it. *)
Inductive event : Type :=
| Serial_begin (baud : Z)
| Serial_print (s : string)        (* one [Serial.print] call *)
| Serial_println (s : string)      (* one [Serial.println] call *)
| Serial_write (b : Z)             (* [Serial.write(b)]: the raw byte *)
| pinMode_OUTPUT (pin : Z)
| digitalWrite (pin : Z) (level : bool)
| delay (ms : Z)
| millis_is (t : Z)                (* [millis()] returned [t] *)
| Serial1_read_is (r : Z)          (* [Serial1.read()] returned [r] *)
| Serial1_end
| Serial1_begin (baud rx tx : Z).

(** The environment of one run.  [clock] holds the values the coming calls of
    [millis()] return ([uint32_t] values, in milliseconds); [rx] holds the
    coming bursts on Serial1, a burst being what [Serial1.read()] returns
    while [Serial1.available()] stays non-zero; [trace] is what has happened
    so far, oldest first. *)
Record world : Type := World {
  clock : list Z;
  rx : list (list Z);
  trace : list event
}.

(** A run fails, with [None], when the clock script ends while the sketch is
    still waiting on it. *)

Definition emit (e : event) : M world unit :=
  fun w => Some (tt, World (clock w) (rx w) (trace w ++ [e])).

Definition millis : M world Z :=
  fun w => match clock w with
           | [] => None
           | t :: later => Some (t, World later (rx w) (trace w ++ [millis_is t]))
           end.

(** The bytes the inner [while (Serial1.available())] is going to read. *)
Definition Serial1_burst : M world (list Z) :=
  fun w => match rx w with
           | [] => Some ([], w)
           | burst :: later => Some (burst, World (clock w) later (trace w))
           end.

(** [pulseReset] (lines 65-71) *)
Definition pulseReset : M world unit :=
  emit (pinMode_OUTPUT GNSS_RST) ;;
  emit (digitalWrite GNSS_RST LOW) ;;
  emit (delay 80) ;;
  emit (digitalWrite GNSS_RST HIGH) ;;
  emit (delay 500).

(** [setWake] (lines 73-77) *)
Definition setWake (level : bool) : M world unit :=
  emit (pinMode_OUTPUT GNSS_WAKE) ;;
  emit (digitalWrite GNSS_WAKE (if level then HIGH else LOW)) ;;
  emit (delay 200).

(** [setGnssPower] (lines 79-83) *)
Definition setGnssPower (level : bool) : M world unit :=
  emit (pinMode_OUTPUT VGNSS_CTRL) ;;
  emit (digitalWrite VGNSS_CTRL (if level then HIGH else LOW)) ;;
  emit (delay 300).

(** The body of the inner loop of [dumpForMs] (lines 90-101) for one
    [Serial1.read()] result [r]; it returns the new value of [cnt]. *)
Definition dump_byte (r cnt : Z) : M world Z :=
  emit (Serial1_read_is r) ;;
  let b := to_uint8 r in
  let cnt := to_uint32 (cnt + 1) in
  when (b <? 16) (emit (Serial_print "0")) ;;
  emit (Serial_print (printNumber b HEX)) ;;
  emit (Serial_print " ") ;;
  (if (32 <=? b) && (b <=? 126) then emit (Serial_write b)
   else emit (Serial_print ".")) ;;
  emit (Serial_print " ") ;;
  ret cnt.

(** [while (Serial1.available()) { ... }] over the burst it reads. *)
Fixpoint drain (burst : list Z) (cnt : Z) : M world Z :=
  match burst with
  | [] => ret cnt
  | r :: later => cnt' <- dump_byte r cnt ;; drain later cnt'
  end.

(** [while (millis() < endAt) { ... }].  Every test of the loop condition
    takes one reading from the clock script, so [polls], the number of
    readings left when the loop starts, bounds the number of tests. *)
Fixpoint dump_loop (polls : nat) (endAt cnt : Z) : M world Z :=
  match polls with
  | O => fun _ => None
  | S polls' =>
      now <- millis ;;
      if now <? endAt then
        burst <- Serial1_burst ;;
        cnt' <- drain burst cnt ;;
        dump_loop polls' endAt cnt'
      else ret cnt
  end.

(** [dumpForMs] (lines 85-107) *)
Definition dumpForMs (ms : Z) : M world unit :=
  start <- millis ;;
  let endAt := to_uint32 (start + ms) in
  cnt <- (fun w => dump_loop (length (clock w)) endAt 0 w) ;;
  emit (Serial_println "") ;;
  emit (Serial_print "bytes read: ") ;;
  emit (Serial_println (printNumber cnt DEC)).

(** [tryCombo] (lines 109-125) *)
Definition tryCombo (name : string) (rx tx baud : Z) : M world unit :=
  emit (Serial_println "--------------------------------") ;;
  emit (Serial_print name) ;;
  emit (Serial_print "  rx=") ;;
  emit (Serial_print (print_long rx)) ;;
  emit (Serial_print " tx=") ;;
  emit (Serial_print (print_long tx)) ;;
  emit (Serial_print " baud=") ;;
  emit (Serial_println (print_long baud)) ;;
  emit Serial1_end ;;
  emit (delay 50) ;;
  emit (Serial1_begin baud rx tx) ;;
  emit (delay 200) ;;
  dumpForMs 3000.

(** The body of the two nested [for] loops of [setup] (lines 136-156), for
    one [p] and one [w]. *)
Definition sweep_body (p w : bool) : M world unit :=
  emit (Serial_println "================================================================") ;;
  emit (Serial_println "================================================================") ;;
  emit (Serial_println "================================================================") ;;
  emit (Serial_print "POWER=") ;;
  emit (Serial_print (if p then "HIGH" else "LOW")) ;;
  emit (Serial_print "  WAKE=") ;;
  emit (Serial_println (if w then "HIGH" else "LOW")) ;;
  setGnssPower p ;;
  setWake w ;;
  pulseReset ;;
  tryCombo "PinsA" RXA TXA 9600 ;;
  tryCombo "PinsA" RXA TXA 38400 ;;
  tryCombo "PinsA" RXA TXA 115200 ;;
  tryCombo "PinsB" RXB TXB 9600 ;;
  tryCombo "PinsB" RXB TXB 38400 ;;
  tryCombo "PinsB" RXB TXB 115200.

(** [for (int i = 0; i < 2; i++) body(i)]: [i] is 0, then 1. *)
Definition for2 (body : bool -> M world unit) : M world unit :=
  body false ;; body true.

(** [setup] (lines 127-161) *)
Definition setup : M world unit :=
  emit (Serial_begin 115200) ;;
  emit (delay 300) ;;
  emit (Serial_println "GNSS bring-up debug") ;;
  for2 (fun p => for2 (fun w => sweep_body p w)) ;;
  emit (Serial_println "DONE").

(** [loop] (line 163) is empty. *)
Definition loop : M world unit := ret tt.

(** The Arduino runtime: [setup()] once, then [loop()] again and again;
    [arduino_main n] is the run up to the end of the [n]-th [loop()]. *)
Fixpoint loops (n : nat) : M world unit :=
  match n with
  | O => ret tt
  | S n' => loop ;; loops n'
  end.

Definition arduino_main (n : nat) : M world unit := setup ;; loops n.

(** *** Reading a trace *)

(** [Print::println] ends the line with carriage return and line feed. *)
Definition CRLF : string := String "013" (String "010" EmptyString).

(** The characters an event puts on Serial. *)
Definition event_text (e : event) : string :=
  match e with
  | Serial_print s => s
  | Serial_println s => s ++ CRLF
  | Serial_write b => String (ascii_of_N (Z.to_N b)) EmptyString
  | _ => EmptyString
  end.

Fixpoint serial_text (tr : list event) : string :=
  match tr with
  | [] => EmptyString
  | e :: tr' => event_text e ++ serial_text tr'
  end.

(** The readings of [millis()] in a trace, and the results of
    [Serial1.read()]. *)
Fixpoint clock_reads (tr : list event) : list Z :=
  match tr with
  | [] => []
  | millis_is t :: tr' => t :: clock_reads tr'
  | _ :: tr' => clock_reads tr'
  end.

Fixpoint bytes_read (tr : list event) : list Z :=
  match tr with
  | [] => []
  | Serial1_read_is r :: tr' => r :: bytes_read tr'
  | _ :: tr' => bytes_read tr'
  end.

(** The time between the first and the last clock reading of a trace: for
    the trace of one [dumpForMs], from the reading that fixes [endAt] to the
    reading that ends the loop. *)
Definition window_span (tr : list event) : Z :=
  List.last (clock_reads tr) 0 - List.hd 0 (clock_reads tr).

(** The footer of a capture window. *)
Definition is_window_footer (e : event) : bool :=
  match e with
  | Serial_print s => String.eqb s "bytes read: "
  | _ => false
  end.

Definition capture_windows (tr : list event) : nat :=
  length (List.filter is_window_footer tr).

(** The events of a trace that tell the sweep: the levels driven on the power
    and wake pins, the transport configurations, the window footers. *)
Definition sweep_keep (e : event) : bool :=
  match e with
  | digitalWrite pin _ => (pin =? VGNSS_CTRL) || (pin =? GNSS_WAKE)
  | Serial1_begin _ _ _ => true
  | _ => is_window_footer e
  end.

Definition sweep_view (tr : list event) : list event :=
  List.filter sweep_keep tr.

(** *** The format and the sweep, as the documentation words them *)

(** Two uppercase hexadecimal digits, a space, the character or a dot,
    a space. *)
Definition hex_digit (d : Z) : ascii :=
  List.nth (Z.to_nat d) (list_ascii_of_string "0123456789ABCDEF") "?"%char.

Definition printable (b : Z) : bool := (32 <=? b) && (b <=? 126).

Definition hex_ascii_format (b : Z) : string :=
  String (hex_digit (b / 16)) (String (hex_digit (b mod 16)) (String " "
    (String (if printable b then ascii_of_N (Z.to_N b) else ".") (String " "
      EmptyString)))).

Definition levels : list bool := [LOW; HIGH].
Definition pin_variants : list (Z * Z) := [(RXA, TXA); (RXB, TXB)].
Definition baud_rates : list Z := [9600; 38400; 115200].

(** Power outermost, then wake, then pin variant, then baud rate; one
    transport configuration and one window per combination. *)
Definition sweep_plan : list event :=
  List.flat_map (fun p =>
    List.flat_map (fun w =>
      [digitalWrite VGNSS_CTRL p; digitalWrite GNSS_WAKE w] ++
      List.flat_map (fun pins =>
        List.flat_map (fun baud =>
          [Serial1_begin baud (fst pins) (snd pins);
           Serial_print "bytes read: "])
          baud_rates)
        pin_variants)
      levels)
    levels.

(** *** What the functions add to the trace *)

(** [emits m a evs]: [m] returns [a], reads nothing from the scripts and
    appends [evs] to the trace. *)
Definition emits {A} (m : M world A) (a : A) (evs : list event) : Prop :=
  forall w, m w = Some (a, World (clock w) (rx w) (trace w ++ evs)).

(** What the loop body prints for the byte [b]. *)
Definition byte_prints (b : Z) : list event :=
  (if b <? 16 then [Serial_print "0"] else []) ++
  [Serial_print (printNumber b HEX); Serial_print " ";
   if printable b then Serial_write b else Serial_print ".";
   Serial_print " "].

Definition byte_events (r : Z) : list event :=
  Serial1_read_is r :: byte_prints (to_uint8 r).

(** What [dumpForMs] prints for one [Serial1.read()] result. *)
Definition dump_text (r : Z) : string :=
  match dump_byte r 0 (World [] [] []) with
  | Some (_, w) => serial_text (trace w)
  | None => EmptyString
  end.

(** [cnt] after [n] increments. *)
Fixpoint counted (n : nat) (cnt : Z) : Z :=
  match n with
  | O => cnt
  | S n' => counted n' (to_uint32 (cnt + 1))
  end.

(** The events of the loop of [dumpForMs] while the readings [busy] stay
    below the deadline: each reading, then the burst drained after it. *)
Fixpoint window_events (busy : list Z) (bursts : list (list Z)) : list event :=
  match busy with
  | [] => []
  | t :: busy' =>
      millis_is t :: List.flat_map byte_events (List.hd [] bursts) ++
      window_events busy' (List.tl bursts)
  end.

(** The bytes those bursts hold. *)
Definition window_bytes (busy : list Z) (bursts : list (list Z)) : list Z :=
  concat (take (length busy) bursts).

Definition window_footer (cnt : Z) : list event :=
  [Serial_println ""; Serial_print "bytes read: ";
   Serial_println (printNumber cnt DEC)].

Definition window_trace (start : Z) (busy : list Z) (fin : Z)
    (bursts : list (list Z)) : list event :=
  millis_is start :: window_events busy bursts ++ [millis_is fin] ++
  window_footer (counted (length (window_bytes busy bursts)) 0).

(** The text of the dump: one group per byte read. *)
Fixpoint dump_format (bytes : list Z) : string :=
  match bytes with
  | [] => EmptyString
  | r :: bytes' => (hex_ascii_format (to_uint8 r) ++ dump_format bytes')%string
  end.

(** What [tryCombo] does before the window. *)
Definition combo_header (name : string) (rx tx baud : Z) : list event :=
  [Serial_println "--------------------------------";
   Serial_print name; Serial_print "  rx="; Serial_print (print_long rx);
   Serial_print " tx="; Serial_print (print_long tx);
   Serial_print " baud="; Serial_println (print_long baud);
   Serial1_end; delay 50; Serial1_begin baud rx tx; delay 200].

(** *** Clock scripts *)

(** The deadline of a window that starts at reading [start]. *)
Definition deadline (start ms : Z) : Z := to_uint32 (start + ms).

(** [feeds n script]: the script holds the readings of [n] windows of 3000ms
    in a row, each one its first reading, the readings below its deadline
    and one reading that has reached it. *)
Inductive feeds : nat -> list Z -> Prop :=
| feeds_none script : feeds O script
| feeds_window n start busy fin rest :
    Forall (fun t => t < deadline start 3000) busy ->
    deadline start 3000 <= fin ->
    feeds n rest ->
    feeds (S n) (start :: busy ++ fin :: rest).

(** [sweeps m n view]: on a clock script that feeds [n] windows and [k] more,
    [m] returns, leaves a script that feeds the [k] others, and adds [view]
    to what the trace tells of the sweep. *)
Definition sweeps (m : M world unit) (n : nat) (view : list event) : Prop :=
  forall k w, feeds (n + k) (clock w) ->
    exists w', m w = Some (tt, w') /\ feeds k (clock w') /\
               sweep_view (trace w') = sweep_view (trace w) ++ view.

(** A receiver that stays silent: every window reads the clock at 0 and then
    at 3000. *)
Definition silent : world :=
  World (concat (repeat [0; 3000] 24)) [] [].

(** The start of a sentence, "$GPGGA,123519", is pending at the test made
    at 3999; reading and printing its 13 bytes takes the clock to 4005. *)
Definition late : world :=
  World [1000; 3999; 4005]
    [[36; 71; 80; 71; 71; 65; 44; 49; 50; 51; 53; 49; 57]] [].

(** *** Reading the dump back *)

(** The value of an uppercase hexadecimal digit. *)
Definition hex_value (c : ascii) : option Z :=
  let n := Z.of_N (N_of_ascii c) in
  if (48 <=? n) && (n <=? 57) then Some (n - 48)
  else if (65 <=? n) && (n <=? 70) then Some (n - 55)
  else None.

(** The bytes a dump shows: groups of two hexadecimal digits, a space, one
    character and a space; [None] for a text that is no such dump. *)
Fixpoint undump (s : string) : option (list Z) :=
  match s with
  | EmptyString => Some []
  | String h (String l (String sp1 (String _ (String sp2 s')))) =>
      match hex_value h, hex_value l, undump s' with
      | Some hi, Some lo, Some bytes =>
          if Ascii.eqb sp1 " " && Ascii.eqb sp2 " "
          then Some (16 * hi + lo :: bytes) else None
      | _, _, _ => None
      end
  | _ => None
  end.

(** *** The hardware side of a trace *)

(** The events that act on pins, on time or on the configuration of a
    serial port. *)
Definition is_hardware (e : event) : bool :=
  match e with
  | Serial_begin _ | pinMode_OUTPUT _ | digitalWrite _ _ | delay _
  | Serial1_end | Serial1_begin _ _ _ => true
  | _ => false
  end.

Definition hardware_view (tr : list event) : list event :=
  List.filter is_hardware tr.

(** The hardware side of the sweep, as the header comment of the file and
    the comments of its helpers word it: serial console at 115200 baud; for
    each power level and each wake level, power then wake then a reset pulse
    (low 80ms, high 500ms); for each pin variant and baud rate, Serial1
    ended, 50ms, Serial1 begun, 200ms. *)
Definition hardware_plan : list event :=
  [Serial_begin 115200; delay 300] ++
  List.flat_map (fun p =>
    List.flat_map (fun w =>
      [pinMode_OUTPUT VGNSS_CTRL; digitalWrite VGNSS_CTRL p; delay 300;
       pinMode_OUTPUT GNSS_WAKE; digitalWrite GNSS_WAKE w; delay 200;
       pinMode_OUTPUT GNSS_RST; digitalWrite GNSS_RST LOW; delay 80;
       digitalWrite GNSS_RST HIGH; delay 500] ++
      List.flat_map (fun pins =>
        List.flat_map (fun baud =>
          [Serial1_end; delay 50;
           Serial1_begin baud (fst pins) (snd pins); delay 200])
          baud_rates)
        pin_variants)
      levels)
    levels.

(** [acts m n plan]: on a clock script that feeds [n] windows and [k] more,
    [m] returns, leaves a script that feeds the [k] others, and the hardware
    side of what it adds to the trace is [plan]. *)
Definition acts (m : M world unit) (n : nat) (plan : list event) : Prop :=
  forall k w, feeds (n + k) (clock w) ->
    exists w' evs, m w = Some (tt, w') /\ feeds k (clock w') /\
                   trace w' = trace w ++ evs /\ hardware_view evs = plan.

(** The time spent in [delay]. *)
Fixpoint total_delay (tr : list event) : Z :=
  match tr with
  | [] => 0
  | delay ms :: tr' => ms + total_delay tr'
  | _ :: tr' => total_delay tr'
  end.

(** No pin is driven that has not been made an output before; [outputs]
    holds the pins made outputs so far. *)
Fixpoint outputs_first (outputs : list Z) (tr : list event) : bool :=
  match tr with
  | [] => true
  | pinMode_OUTPUT pin :: tr' => outputs_first (pin :: outputs) tr'
  | digitalWrite pin _ :: tr' =>
      existsb (Z.eqb pin) outputs && outputs_first outputs tr'
  | _ :: tr' => outputs_first outputs tr'
  end.

(** The level each pin was last driven to, if it was driven. *)
Definition pin_levels : Type := Z -> option bool.

Definition no_levels : pin_levels := fun _ => None.

Definition drive (pin : Z) (level : bool) (pins : pin_levels) : pin_levels :=
  fun q => if q =? pin then Some level else pins q.

(** The levels of the power, wake and reset lines at each [Serial1.begin]. *)
Fixpoint levels_at_begin (pins : pin_levels) (tr : list event)
    : list (option bool * option bool * option bool) :=
  match tr with
  | [] => []
  | digitalWrite pin level :: tr' => levels_at_begin (drive pin level pins) tr'
  | Serial1_begin _ _ _ :: tr' =>
      (pins VGNSS_CTRL, pins GNSS_WAKE, pins GNSS_RST) ::
      levels_at_begin pins tr'
  | _ :: tr' => levels_at_begin pins tr'
  end.


(** A clock one second before it wraps, three bytes pending. *)
Definition near_wrap : world :=
  World [2 ^ 32 - 1000; 2 ^ 32 - 1000] [[36; 71; 80]] [].

End Debug_GNSS.

(** * The GPS display demo (src/examples/GPSwithOLED.cpp) *)

Module GPSwithOLED.

(** ** The collaborators *)

(** The TinyGPS++ parser object [GPS], as far as the sketch uses it.  The
    getters of a value also clear its updated flag: [time_taken] and
    [location_taken] are the parser after one such call.  [location_lat] and
    [location_lng] stand for [lat()] and [lng()] as ["%.6f"] prints them. *)
Class TinyGPSPlus (gps : Type) : Type := {
  gps_encode : ascii -> gps -> gps;
  location_isUpdated : gps -> bool;
  location_isValid : gps -> bool;
  location_lat : gps -> string;
  location_lng : gps -> string;
  location_taken : gps -> gps;
  time_isUpdated : gps -> bool;
  time_isValid : gps -> bool;
  time_hour : gps -> Z;
  time_minute : gps -> Z;
  time_second : gps -> Z;
  time_centisecond : gps -> Z;
  time_taken : gps -> gps
}.

(** The calls the sketch makes on the SSD1306 driver object [display]. *)
Inductive alignment : Type := TEXT_ALIGN_LEFT | TEXT_ALIGN_RIGHT.

Inductive oled_call : Type :=
| oled_clear
| oled_setTextAlignment (a : alignment)
| oled_drawString (x y : Z) (text : string)
| oled_drawProgressBar (x y width height progress : Z)
| oled_display.

(** ** C strings *)

Definition NUL : ascii := "000"%char.
Definition newline : ascii := "010"%char.
Definition dollar : ascii := "$"%char.

(** [sizeof(txtBuf)] *)
Definition sizeof_txtBuf : Z := 80.

(** The string a [char] array holds: the characters before the first NUL.
    An array with no NUL holds no string; reading it runs past its end. *)
Fixpoint c_str (buf : list ascii) : option (list ascii) :=
  match buf with
  | [] => None
  | c :: buf' =>
      if Ascii.eqb c NUL then Some [] else option_map (cons c) (c_str buf')
  end.

Fixpoint starts_with (needle s : list ascii) : bool :=
  match needle, s with
  | [], _ => true
  | _ :: _, [] => false
  | a :: needle', b :: s' => Ascii.eqb a b && starts_with needle' s'
  end.

(** [strstr] of the C library on a string: the offset of the first
    occurrence of [needle], or [None] for the null pointer. *)
Fixpoint strstr (s needle : list ascii) : option nat :=
  match s with
  | [] => if starts_with needle [] then Some O else None
  | _ :: s' =>
      if starts_with needle s then Some O else option_map S (strstr s' needle)
  end.

(** [contains needle line]: [needle] occurs in [line]. *)
Definition contains (needle : string) (line : list ascii) : Prop :=
  exists before after, line = before ++ list_ascii_of_string needle ++ after.

(** A pointer converted to [bool]. *)
Definition to_bool (p : option nat) : bool :=
  match p with Some _ => true | None => false end.

(** [snprintf(dst, size, ...)] keeps [size - 1] characters. *)
Definition snprintf (size : nat) (s : string) : string :=
  substring 0 (size - 1) s.

(** ["%02d"] *)
Definition fmt_02d (v : Z) : string :=
  if (0 <=? v) && (v <? 10) then String "0" (print_long v) else print_long v.

Section Sketch.

Context {gps : Type} `{TinyGPSPlus gps}.

(** ** The state of the sketch

    The globals and the function-local statics of [loop], what has been sent
    to the display and to Serial, and the clock: [millis_at n] is the value the
    [n]-th call of [millis()] returns, [millis_calls] counts the calls made. *)
Record sketch : Type := Sketch {
  GPS : gps;
  antennaOpen : bool;
  lastAntennaMsg : Z;
  txtBuf : list ascii;
  idx : Z;
  lastUi : Z;
  counter : Z;
  oled : list oled_call;
  serial : list string;
  millis_at : nat -> Z;
  millis_calls : nat
}.

Definition with_GPS (v : gps) (s : sketch) : sketch :=
  Sketch v (antennaOpen s) (lastAntennaMsg s) (txtBuf s) (idx s) (lastUi s)
    (counter s) (oled s) (serial s) (millis_at s) (millis_calls s).
Definition with_antennaOpen (v : bool) (s : sketch) : sketch :=
  Sketch (GPS s) v (lastAntennaMsg s) (txtBuf s) (idx s) (lastUi s)
    (counter s) (oled s) (serial s) (millis_at s) (millis_calls s).
Definition with_lastAntennaMsg (v : Z) (s : sketch) : sketch :=
  Sketch (GPS s) (antennaOpen s) v (txtBuf s) (idx s) (lastUi s)
    (counter s) (oled s) (serial s) (millis_at s) (millis_calls s).
Definition with_txtBuf (v : list ascii) (s : sketch) : sketch :=
  Sketch (GPS s) (antennaOpen s) (lastAntennaMsg s) v (idx s) (lastUi s)
    (counter s) (oled s) (serial s) (millis_at s) (millis_calls s).
Definition with_idx (v : Z) (s : sketch) : sketch :=
  Sketch (GPS s) (antennaOpen s) (lastAntennaMsg s) (txtBuf s) v (lastUi s)
    (counter s) (oled s) (serial s) (millis_at s) (millis_calls s).
Definition with_lastUi (v : Z) (s : sketch) : sketch :=
  Sketch (GPS s) (antennaOpen s) (lastAntennaMsg s) (txtBuf s) (idx s) v
    (counter s) (oled s) (serial s) (millis_at s) (millis_calls s).
Definition with_counter (v : Z) (s : sketch) : sketch :=
  Sketch (GPS s) (antennaOpen s) (lastAntennaMsg s) (txtBuf s) (idx s)
    (lastUi s) v (oled s) (serial s) (millis_at s) (millis_calls s).
Definition with_oled (v : list oled_call) (s : sketch) : sketch :=
  Sketch (GPS s) (antennaOpen s) (lastAntennaMsg s) (txtBuf s) (idx s)
    (lastUi s) (counter s) v (serial s) (millis_at s) (millis_calls s).
Definition with_serial (v : list string) (s : sketch) : sketch :=
  Sketch (GPS s) (antennaOpen s) (lastAntennaMsg s) (txtBuf s) (idx s)
    (lastUi s) (counter s) (oled s) v (millis_at s) (millis_calls s).
Definition with_millis_calls (v : nat) (s : sketch) : sketch :=
  Sketch (GPS s) (antennaOpen s) (lastAntennaMsg s) (txtBuf s) (idx s)
    (lastUi s) (counter s) (oled s) (serial s) (millis_at s) v.

(** A run fails, with [None], on an access outside [txtBuf]. *)

(** [millis()] *)
Definition millis : M sketch Z :=
  fun s => Some (to_uint32 (millis_at s (millis_calls s)), with_millis_calls (S (millis_calls s)) s).

(** [txtBuf[i] = c] *)
Definition store_txtBuf (i : Z) (c : ascii) : M sketch unit :=
  if (0 <=? i) && (i <? sizeof_txtBuf)
  then modify (fun s => with_txtBuf (<[Z.to_nat i := c]> (txtBuf s)) s)
  else fault.

(** [strstr(txtBuf, needle)], converted to [bool] *)
Definition strstr_txtBuf (needle : string) : M sketch bool :=
  buf <- get txtBuf ;;
  match c_str buf with
  | Some s => ret (to_bool (strstr s (list_ascii_of_string needle)))
  | None => fault
  end.

Definition display_call (c : oled_call) : M sketch unit :=
  modify (fun s => with_oled (oled s ++ [c]) s).

Definition Serial_println (line : string) : M sketch unit :=
  modify (fun s => with_serial (serial s ++ [line]) s).

(** ** [loop] *)

(** The GPTXT sniffing done for each character read (lines 112-129): first
    the character goes into [txtBuf], [$] restarting the line (lines
    115-121)... *)
Definition buffer_char (c : ascii) : M sketch unit :=
  when (Ascii.eqb c dollar) (modify (with_idx 0)) ;;
  i <- get idx ;;
  when (i <? sizeof_txtBuf - 1) (
    store_txtBuf i c ;;
    modify (with_idx (to_uint8 (i + 1))) ;;
    i' <- get idx ;;
    store_txtBuf i' NUL).

(** ... then a line feed has the buffered line looked at (lines 123-129). *)
Definition end_of_line (c : ascii) : M sketch unit :=
  when (Ascii.eqb c newline) (
    found <- strstr_txtBuf "ANTENNA" ;;
    when found (
      open <- strstr_txtBuf "OPEN" ;;
      modify (with_antennaOpen open) ;;
      now <- millis ;;
      modify (with_lastAntennaMsg now)) ;;
    modify (with_idx 0)).

Definition sniff (c : ascii) : M sketch unit :=
  buffer_char c ;;
  end_of_line c.

(** The body of [while (Serial1.available())] (lines 108-129) for the
    character [c]. *)
Definition ingest_char (c : ascii) : M sketch unit :=
  modify (fun s => with_GPS (gps_encode c (GPS s)) s) ;;
  sniff c.

(** [while (Serial1.available()) { ... }] over the characters it reads. *)
Fixpoint ingest (chars : list ascii) : M sketch unit :=
  match chars with
  | [] => ret tt
  | c :: later => ingest_char c ;; ingest later
  end.

(** The branch drawn while neither time nor location is valid (lines
    148-154); [/] and [%] of C truncate, [counter] is a 32-bit [int] and
    [drawProgressBar] takes its last argument as [uint8_t]. *)
Definition draw_searching : M sketch unit :=
  c <- get counter ;;
  let progress := Z.rem (Z.quot c 5) 100 in
  modify (with_counter (to_int32 (c + 1))) ;;
  display_call (oled_setTextAlignment TEXT_ALIGN_LEFT) ;;
  display_call (oled_drawString 0 10 "Searching GPS ...") ;;
  display_call (oled_drawProgressBar 0 32 120 10 (to_uint8 progress)).

(** The other branch (lines 156-185).  The four getters of the time are
    arguments of one [snprintf] call: each clears the updated flag and none
    changes what the others return, so all are read from the parser as it
    was before the call. *)
Definition draw_fix (hasTime hasLoc : bool) : M sketch unit :=
  t <- (if hasTime then
          g <- get GPS ;;
          modify (with_GPS (time_taken (time_taken (time_taken (time_taken g))))) ;;
          ret (snprintf 20
                 (fmt_02d (to_uint8 (time_hour g)) ++ ":" ++
                  fmt_02d (to_uint8 (time_minute g)) ++ ":" ++
                  fmt_02d (to_uint8 (time_second g)) ++ "." ++
                  fmt_02d (to_uint8 (time_centisecond g))))
        else ret (snprintf 20 "--:--:--.--")) ;;
  lalo <- (if hasLoc then
             g <- get GPS ;;
             modify (with_GPS (location_taken g)) ;;
             g' <- get GPS ;;
             modify (with_GPS (location_taken g')) ;;
             ret (snprintf 24 ("LAT: " ++ location_lat g),
                  snprintf 24 ("LON: " ++ location_lng g'))
           else ret (snprintf 24 "LAT: ----", snprintf 24 "LON: ----")) ;;
  Serial_println t ;;
  Serial_println (fst lalo) ;;
  Serial_println (snd lalo) ;;
  display_call (oled_setTextAlignment TEXT_ALIGN_LEFT) ;;
  display_call (oled_drawString 0 0 t) ;;
  display_call (oled_drawString 0 12 (fst lalo)) ;;
  display_call (oled_drawString 0 24 (snd lalo)).

(** The antenna status, top right (lines 189-193). *)
Definition draw_antenna : M sketch unit :=
  display_call (oled_setTextAlignment TEXT_ALIGN_RIGHT) ;;
  now <- millis ;;
  last <- get lastAntennaMsg ;;
  when (sub32 now last <? 5000) (
    open <- get antennaOpen ;;
    display_call (oled_drawString 127 0 (if open then "ANT OPEN" else "ANT OK"))).

(** The uptime footer (lines 196-198). *)
Definition draw_uptime : M sketch unit :=
  now <- millis ;;
  display_call
    (oled_drawString 127 54 (snprintf 12 (printNumber (now / 1000) DEC ++ "s"))).

(** The body of [if (gpsUpdated || millis() - lastUi >= 1000)] (lines
    140-200): one render pass. *)
Definition render : M sketch unit :=
  now <- millis ;;
  modify (with_lastUi now) ;;
  display_call oled_clear ;;
  hasTime <- get (fun s => time_isValid (GPS s)) ;;
  hasLoc <- get (fun s => location_isValid (GPS s)) ;;
  (if negb hasTime && negb hasLoc then draw_searching
   else draw_fix hasTime hasLoc) ;;
  draw_antenna ;;
  draw_uptime ;;
  display_call oled_display.

(** The UI update logic (lines 133-201); [||] does not evaluate its right
    side when [gpsUpdated] holds. *)
Definition ui_update : M sketch unit :=
  gpsUpdated <- get (fun s => location_isUpdated (GPS s) || time_isUpdated (GPS s)) ;;
  due <- (if gpsUpdated then ret true
          else now <- millis ;;
               last <- get lastUi ;;
               ret (1000 <=? sub32 now last)) ;;
  when due render.

(** One call of [loop] (lines 105-202), in which Serial1 delivers [chars]. *)
Definition loop (chars : list ascii) : M sketch unit :=
  ingest chars ;;
  ui_update.

(** [loop()] again and again: one list of characters per call. *)
Fixpoint loops (deliveries : list (list ascii)) : M sketch unit :=
  match deliveries with
  | [] => ret tt
  | chars :: later => loop chars ;; loops later
  end.

(** The sketch when [loop] is first called: the globals (lines 58-59) and
    the statics of [loop] (lines 112-113, 133, 148) as their initialisers
    leave them, whatever [setup] did to the parser, the display and Serial. *)
Definition boot (g : gps) (shown : list oled_call) (printed : list string)
    (clk : nat -> Z) (n : nat) : sketch :=
  Sketch g false 0 (replicate 80 NUL) 0 0 0 shown printed clk n.

(** *** Reading the calls on the display *)

(** The texts drawn at the place of the antenna badge, (127, 0). *)
Fixpoint badge_texts (calls : list oled_call) : list string :=
  match calls with
  | [] => []
  | oled_drawString x y text :: calls' =>
      if (x =? 127) && (y =? 0) then text :: badge_texts calls'
      else badge_texts calls'
  | _ :: calls' => badge_texts calls'
  end.

(** The fill values of the progress bars drawn. *)
Fixpoint progress_fills (calls : list oled_call) : list Z :=
  match calls with
  | [] => []
  | oled_drawProgressBar _ _ _ _ p :: calls' => p :: progress_fills calls'
  | _ :: calls' => progress_fills calls'
  end.

(** The calls of [draw_searching] when the tick counter is [c], those of
    [draw_antenna] and the text of [draw_uptime] when [millis()] returns
    [now]. *)
Definition searching_calls (c : Z) : list oled_call :=
  [oled_setTextAlignment TEXT_ALIGN_LEFT;
   oled_drawString 0 10 "Searching GPS ...";
   oled_drawProgressBar 0 32 120 10 (to_uint8 (Z.rem (Z.quot c 5) 100))].

Definition antenna_calls (open : bool) (now last : Z) : list oled_call :=
  oled_setTextAlignment TEXT_ALIGN_RIGHT ::
  (if sub32 now last <? 5000
   then [oled_drawString 127 0 (if open then "ANT OPEN" else "ANT OK")]
   else []).

Definition uptime_text (now : Z) : string :=
  snprintf 12 (printNumber (now / 1000) DEC ++ "s").

(** *** The line buffer *)

(** What every run keeps true of the buffer: 80 characters, the index
    inside it and below the last place, a NUL in the last place. *)
Definition buffer_ok (st : sketch) : Prop :=
  length (txtBuf st) = 80%nat /\ 0 <= idx st <= 79 /\
  txtBuf st !! 79%nat = Some NUL.

(** The buffer and the index after [buffer_char c]. *)
Definition appended (c : ascii) (st : sketch) : list ascii * Z :=
  let i := if Ascii.eqb c dollar then 0 else idx st in
  if i <? sizeof_txtBuf - 1
  then (<[Z.to_nat (i + 1) := NUL]> (<[Z.to_nat i := c]> (txtBuf st)), i + 1)
  else (txtBuf st, i).

Definition buffered (c : ascii) (st : sketch) : sketch :=
  with_idx (snd (appended c st)) (with_txtBuf (fst (appended c st)) st).

(** The sketch after [end_of_line newline] has looked at [line]. *)
Definition line_seen (line : list ascii) (st : sketch) : sketch :=
  with_idx 0
    (if to_bool (strstr line (list_ascii_of_string "ANTENNA"))
     then with_lastAntennaMsg (to_uint32 (millis_at st (millis_calls st)))
            (with_millis_calls (S (millis_calls st))
               (with_antennaOpen
                  (to_bool (strstr line (list_ascii_of_string "OPEN"))) st))
     else st).

(** [line_so_far s st]: the buffer holds the string [s] and the index stands
    behind it. *)
Definition line_so_far (s : list ascii) (st : sketch) : Prop :=
  buffer_ok st /\ idx st = Z.of_nat (length s) /\
  take (length s) (txtBuf st) = s /\ txtBuf st !! length s = Some NUL.

End Sketch.

Arguments sketch gps : clear implicits.

(** A receiver that never reports anything. *)
Definition no_fix : TinyGPSPlus unit := {|
  gps_encode := fun _ g => g;
  location_isUpdated := fun _ => false;
  location_isValid := fun _ => false;
  location_lat := fun _ => EmptyString;
  location_lng := fun _ => EmptyString;
  location_taken := fun g => g;
  time_isUpdated := fun _ => false;
  time_isValid := fun _ => false;
  time_hour := fun _ => 0;
  time_minute := fun _ => 0;
  time_second := fun _ => 0;
  time_centisecond := fun _ => 0;
  time_taken := fun g => g
|}.

(** A clock that stands at 1200ms when [loop] is first called and gains
    a millisecond with every reading. *)
Definition steady_clock (n : nat) : Z := 1200 + Z.of_nat n.

(** The sketch at its first [loop], with that receiver and that clock. *)
Definition fresh : sketch unit := boot tt [] [] steady_clock 0.

(** The sketch with an antenna sentence buffered up to its line feed. *)
Definition antenna_pending : sketch unit :=
  Sketch tt false 0
    (list_ascii_of_string "$GPTXT,01,01,01,ANTENNA OPEN*25" ++ replicate 49 NUL)
    31 0 0 [] [] steady_clock 0.

(** *** More ways to read the sketch *)

(** The characters before the first NUL, and what [strstr] gets to see of a
    line that arrives whole: its first 79 characters up to a NUL. *)
Fixpoint before_NUL (s : list ascii) : list ascii :=
  match s with
  | [] => []
  | c :: s' => if Ascii.eqb c NUL then [] else c :: before_NUL s'
  end.

Definition seen (line : list ascii) : list ascii :=
  before_NUL (take 79 line).

(** The texts drawn at (x, y). *)
Fixpoint texts_at (x y : Z) (calls : list oled_call) : list string :=
  match calls with
  | [] => []
  | oled_drawString x' y' text :: calls' =>
      if (x' =? x) && (y' =? y) then text :: texts_at x y calls'
      else texts_at x y calls'
  | _ :: calls' => texts_at x y calls'
  end.

(** Each string drawn, with the alignment in force when it is drawn; [a] is
    the alignment before the calls. *)
Fixpoint strings_drawn (a : alignment) (calls : list oled_call)
    : list (alignment * Z * string) :=
  match calls with
  | [] => []
  | oled_setTextAlignment a' :: calls' => strings_drawn a' calls'
  | oled_drawString x _ text :: calls' => (a, x, text) :: strings_drawn a calls'
  | _ :: calls' => strings_drawn a calls'
  end.

(** ** [setup] and its helpers

    They read nothing, so each is the list of what it does.  The pins and
    the console are those of the debugger's events; [Vext] is the pin the
    board definition names so. *)

Definition GNSS_RX : Z := 39.
Definition GNSS_TX : Z := 38.
Definition VGNSS_CTRL : Z := 34.
Definition GNSS_WAKE : Z := 40.
Definition GNSS_RST : Z := 42.
Definition GNSS_PPS : Z := 41.

Inductive setup_event : Type :=
| board (e : Debug_GNSS.event)
| display_init
| display_setFont (font : string)
| display_do (c : oled_call).

(** [VextON] and [VextOFF] (lines 63-64) *)
Definition VextON (Vext : Z) : list setup_event :=
  [board (Debug_GNSS.pinMode_OUTPUT Vext);
   board (Debug_GNSS.digitalWrite Vext Debug_GNSS.LOW)].


(** [gnssPowerOn] (lines 66-82) *)
Definition gnssPowerOn : list setup_event :=
  [board (Debug_GNSS.pinMode_OUTPUT VGNSS_CTRL);
   board (Debug_GNSS.digitalWrite VGNSS_CTRL Debug_GNSS.LOW);
   board (Debug_GNSS.pinMode_OUTPUT GNSS_WAKE);
   board (Debug_GNSS.digitalWrite GNSS_WAKE Debug_GNSS.HIGH);
   board (Debug_GNSS.pinMode_OUTPUT GNSS_RST);
   board (Debug_GNSS.digitalWrite GNSS_RST Debug_GNSS.HIGH);
   board (Debug_GNSS.delay 200);
   board (Debug_GNSS.digitalWrite GNSS_RST Debug_GNSS.LOW);
   board (Debug_GNSS.delay 50);
   board (Debug_GNSS.digitalWrite GNSS_RST Debug_GNSS.HIGH);
   board (Debug_GNSS.delay 500)].

(** [setup] (lines 84-103) *)
Definition setup (Vext : Z) : list setup_event :=
  [board (Debug_GNSS.Serial_begin 115200);
   board (Debug_GNSS.delay 200);
   board (Debug_GNSS.Serial_println "Program started. Setting up...")] ++
  VextON Vext ++
  [board (Debug_GNSS.delay 100);
   display_init;
   display_setFont "ArialMT_Plain_10";
   display_do (oled_setTextAlignment TEXT_ALIGN_LEFT);
   display_do oled_clear;
   display_do (oled_drawString 0 0 "Initializing ...");
   display_do oled_display] ++
  gnssPowerOn ++
  [board (Debug_GNSS.Serial1_begin 9600 GNSS_RX GNSS_TX);
   board (Debug_GNSS.Serial_println "GNSS UART started @9600")].

(** The three sides of what [setup] does. *)
Fixpoint board_events (tr : list setup_event) : list Debug_GNSS.event :=
  match tr with
  | [] => []
  | board e :: tr' => e :: board_events tr'
  | _ :: tr' => board_events tr'
  end.

Fixpoint display_calls (tr : list setup_event) : list oled_call :=
  match tr with
  | [] => []
  | display_do c :: tr' => c :: display_calls tr'
  | _ :: tr' => display_calls tr'
  end.

Fixpoint serial_lines (tr : list Debug_GNSS.event) : list string :=
  match tr with
  | [] => []
  | Debug_GNSS.Serial_println line :: tr' => line :: serial_lines tr'
  | _ :: tr' => serial_lines tr'
  end.

(** The sketch when [loop] is first called after [setup]. *)
Definition after_setup {gps : Type} (Vext : Z) (g : gps) (clk : nat -> Z)
    : sketch gps :=
  boot g (display_calls (setup Vext)) (serial_lines (board_events (setup Vext)))
    clk 0.


(** What ["%02d:%02d:%02d.%02d"] makes of four numbers. *)
Definition clock_text (h m sec cs : Z) : string :=
  fmt_02d h ++ ":" ++ fmt_02d m ++ ":" ++ fmt_02d sec ++ "." ++ fmt_02d cs.

(** Texts at the right edge are to be right-aligned, the others
    left-aligned. *)
Definition side_of (x : Z) : alignment :=
  if x =? 127 then TEXT_ALIGN_RIGHT else TEXT_ALIGN_LEFT.

(** A receiver with the time 12:34:56.78 and no location. *)
Definition time_only : TinyGPSPlus unit := {|
  gps_encode := fun _ g => g;
  location_isUpdated := fun _ => false;
  location_isValid := fun _ => false;
  location_lat := fun _ => EmptyString;
  location_lng := fun _ => EmptyString;
  location_taken := fun g => g;
  time_isUpdated := fun _ => true;
  time_isValid := fun _ => true;
  time_hour := fun _ => 12;
  time_minute := fun _ => 34;
  time_second := fun _ => 56;
  time_centisecond := fun _ => 78;
  time_taken := fun g => g
|}.

(** A sentence with the antenna words behind its 79th character. *)
Definition overlong_body : list ascii :=
  list_ascii_of_string
    "GPTXT,01,01,02,u-blox AG - www.u-blox.com,HW UBX-M8030 00080000,ROM CORE 3.01 (107888),ANTENNA OPEN*25".

End GPSwithOLED.

(** * Facts about running sketches *)

Lemma bind_runs {S A B} (m : M S A) (k : A -> M S B) s a s1 :
  m s = Some (a, s1) -> bind m k s = k a s1.
Proof. intros Hm. unfold bind. now rewrite Hm. Qed.

Lemma append_empty_r s : (s ++ "")%string = s.
Proof. induction s as [|c s IH]; cbn; [reflexivity | now rewrite IH]. Qed.

Lemma append_assoc s1 s2 s3 :
  ((s1 ++ s2) ++ s3)%string = (s1 ++ s2 ++ s3)%string.
Proof. induction s1 as [|c s1 IH]; cbn; [reflexivity | now rewrite IH]. Qed.

(** * Facts about the GNSS bring-up debugger *)

Module DebugFacts.
Import Debug_GNSS.
Local Open Scope sketch_scope.

(** ** Running the debugger *)

Lemma emits_ret {A} (a : A) : emits (ret a) a [].
Proof. intros [c r t]. unfold ret. simpl. now rewrite app_nil_r. Qed.

Lemma emits_emit e : emits (emit e) tt [e].
Proof. intros w. reflexivity. Qed.

Lemma emits_bind {A B} (m : M world A) (k : A -> M world B) a b evs1 evs2 :
  emits m a evs1 -> emits (k a) b evs2 -> emits (bind m k) b (evs1 ++ evs2).
Proof.
  intros Hm Hk w. rewrite (bind_runs _ _ _ _ _ (Hm w)), Hk. simpl.
  now rewrite <- app_assoc.
Qed.

Lemma emits_when c m evs :
  emits m tt evs -> emits (when c m) tt (if c then evs else []).
Proof. destruct c; simpl; [trivial | intros _; apply emits_ret]. Qed.

Lemma emits_as {A} (m : M world A) a evs evs' :
  emits m a evs -> evs = evs' -> emits m a evs'.
Proof. now intros H <-. Qed.

Ltac emits_steps :=
  repeat first
    [ apply emits_emit
    | apply emits_ret
    | eapply emits_bind ].

Ltac emits_chain := eapply emits_as; [emits_steps | reflexivity].

(** ** The pin helpers *)

Lemma pulseReset_emits :
  emits pulseReset tt
    [pinMode_OUTPUT GNSS_RST; digitalWrite GNSS_RST LOW; delay 80;
     digitalWrite GNSS_RST HIGH; delay 500].
Proof. unfold pulseReset. emits_chain. Qed.

Lemma setWake_emits level :
  emits (setWake level) tt
    [pinMode_OUTPUT GNSS_WAKE; digitalWrite GNSS_WAKE level; delay 200].
Proof. unfold setWake. destruct level; emits_chain. Qed.

Lemma setGnssPower_emits level :
  emits (setGnssPower level) tt
    [pinMode_OUTPUT VGNSS_CTRL; digitalWrite VGNSS_CTRL level; delay 300].
Proof. unfold setGnssPower. destruct level; emits_chain. Qed.

(** ** One byte of the dump *)

Lemma dump_byte_emits r cnt :
  emits (dump_byte r cnt) (to_uint32 (cnt + 1)) (byte_events r).
Proof.
  unfold dump_byte, byte_events, byte_prints, printable.
  set (b := to_uint8 r).
  eapply emits_as.
  - eapply emits_bind; [apply emits_emit|].
    eapply emits_bind; [apply emits_when, emits_emit|].
    eapply emits_bind; [apply emits_emit|].
    eapply emits_bind; [apply emits_emit|].
    eapply emits_bind.
    + instantiate (1 := [if (32 <=? b) && (b <=? 126) then Serial_write b
                         else Serial_print "."]).
      destruct ((32 <=? b) && (b <=? 126)); apply emits_emit.
    + emits_steps.
  - reflexivity.
Qed.

Lemma to_uint8_range r : 0 <= to_uint8 r < 256.
Proof. unfold to_uint8. apply Z.mod_pos_bound. reflexivity. Qed.

(** Every property of a byte can be checked on the 256 bytes. *)
Lemma byte_cases (P : Z -> bool) :
  forallb P (map Z.of_nat (seq 0 256)) = true ->
  forall b, 0 <= b < 256 -> P b = true.
Proof.
  intros Hall b Hb. rewrite forallb_forall in Hall. apply Hall.
  rewrite <- (Z2Nat.id b) by lia. apply in_map, in_seq. lia.
Qed.

Lemma byte_prints_format b :
  0 <= b < 256 -> serial_text (byte_prints b) = hex_ascii_format b.
Proof.
  intros Hb. apply String.eqb_eq. revert b Hb.
  apply (byte_cases (fun b =>
    String.eqb (serial_text (byte_prints b)) (hex_ascii_format b))).
  vm_compute. reflexivity.
Qed.

Lemma byte_prints_view b :
  0 <= b < 256 ->
  List.filter sweep_keep (byte_prints b) = [] /\
  clock_reads (byte_prints b) = [] /\ bytes_read (byte_prints b) = [].
Proof.
  intros Hb.
  pose (chk := fun b : Z =>
    match List.filter sweep_keep (byte_prints b),
          clock_reads (byte_prints b), bytes_read (byte_prints b) with
    | [], [], [] => true
    | _, _, _ => false
    end).
  assert (H : chk b = true).
  { revert b Hb. apply byte_cases. vm_compute. reflexivity. }
  unfold chk in H.
  destruct (List.filter sweep_keep (byte_prints b)); [|discriminate].
  destruct (clock_reads (byte_prints b)); [|discriminate].
  destruct (bytes_read (byte_prints b)); [|discriminate].
  auto.
Qed.

(** ** The capture window *)

Lemma counted_uint32 n cnt :
  0 <= cnt < 2 ^ 32 -> counted n cnt = to_uint32 (cnt + Z.of_nat n).
Proof.
  revert cnt. induction n as [|n IH]; intros cnt Hc.
  - simpl. unfold to_uint32. rewrite Z.add_0_r, Z.mod_small; lia.
  - cbn [counted]. rewrite IH by (apply Z.mod_pos_bound; reflexivity).
    unfold to_uint32. rewrite Zplus_mod_idemp_l. f_equal. lia.
Qed.

Lemma drain_emits burst cnt :
  emits (drain burst cnt) (counted (length burst) cnt)
    (List.flat_map byte_events burst).
Proof.
  revert cnt. induction burst as [|r burst IH]; intros cnt.
  - apply emits_ret.
  - cbn [drain length counted List.flat_map].
    eapply emits_bind; [apply dump_byte_emits | apply IH].
Qed.

Lemma counted_add n m cnt : counted (n + m) cnt = counted m (counted n cnt).
Proof. revert cnt. induction n; intros; cbn [counted Nat.add]; auto. Qed.

Lemma dump_loop_runs busy : forall bursts polls endAt cnt fin rest tr,
  Forall (fun t => t < endAt) busy ->
  endAt <= fin ->
  (length busy < polls)%nat ->
  dump_loop polls endAt cnt (World (busy ++ fin :: rest) bursts tr) =
  Some (counted (length (window_bytes busy bursts)) cnt,
        World rest (drop (length busy) bursts)
          (tr ++ window_events busy bursts ++ [millis_is fin])).
Proof.
  induction busy as [|t busy IH]; intros bursts polls endAt cnt fin rest tr
    Hbusy Hfin Hpolls; (destruct polls as [|polls]; [simpl in Hpolls; lia|]).
  - cbn. destruct (Z.ltb_spec fin endAt); [lia|]. reflexivity.
  - inversion Hbusy as [|? ? Ht Hbusy']; subst.
    cbn [dump_loop app]. unfold bind at 1. cbn [millis clock rx trace].
    destruct (Z.ltb_spec t endAt); [|lia].
    assert (Hlen : (length busy < polls)%nat) by (simpl in Hpolls; lia).
    destruct bursts as [|burst bursts].
    + unfold bind at 1. cbn [Serial1_burst rx drain].
      unfold bind at 1. cbn [ret].
      rewrite (IH [] polls endAt cnt fin rest _ Hbusy' Hfin Hlen).
      unfold window_bytes. cbn [window_events List.hd List.tl List.flat_map
        length]. rewrite !take_nil, !drop_nil. cbn [app].
      rewrite <- !app_assoc. reflexivity.
    + unfold bind at 1. cbn [Serial1_burst rx clock trace].
      rewrite (bind_runs _ _ _ _ _ (drain_emits burst cnt _)).
      cbn [clock rx trace].
      rewrite (IH bursts polls endAt _ fin rest _ Hbusy' Hfin Hlen).
      unfold window_bytes. cbn [window_events List.hd List.tl length take drop
        concat]. rewrite length_app, counted_add.
      rewrite <- !app_assoc. cbn [app]. rewrite <- !app_assoc. reflexivity.
Qed.

Lemma dumpForMs_runs ms start busy fin rest bursts tr :
  Forall (fun t => t < deadline start ms) busy ->
  deadline start ms <= fin ->
  dumpForMs ms (World (start :: busy ++ fin :: rest) bursts tr) =
  Some (tt, World rest (drop (length busy) bursts)
              (tr ++ window_trace start busy fin bursts)).
Proof.
  intros Hbusy Hfin. unfold dumpForMs.
  unfold bind at 1. cbn [millis clock rx trace].
  unfold bind at 1. cbn [clock].
  rewrite (dump_loop_runs busy bursts _ _ 0 fin rest _ Hbusy Hfin)
    by (rewrite length_app; simpl; lia).
  unfold window_trace, window_footer.
  set (cnt := counted _ 0).
  assert (Hfoot : emits (emit (Serial_println "");;
                         emit (Serial_print "bytes read: ");;
                         emit (Serial_println (printNumber cnt DEC))) tt
            [Serial_println ""; Serial_print "bytes read: ";
             Serial_println (printNumber cnt DEC)]) by emits_chain.
  rewrite Hfoot. cbn [clock rx trace]. rewrite <- !app_assoc. reflexivity.
Qed.

(** ** Reading the trace of a window *)

Lemma sweep_view_app tr1 tr2 :
  sweep_view (tr1 ++ tr2) = sweep_view tr1 ++ sweep_view tr2.
Proof. apply List.filter_app. Qed.

Lemma clock_reads_app tr1 tr2 :
  clock_reads (tr1 ++ tr2) = clock_reads tr1 ++ clock_reads tr2.
Proof.
  induction tr1 as [|e tr1 IH]; [reflexivity|].
  destruct e; cbn [clock_reads app]; rewrite IH; reflexivity.
Qed.

Lemma bytes_read_app tr1 tr2 :
  bytes_read (tr1 ++ tr2) = bytes_read tr1 ++ bytes_read tr2.
Proof.
  induction tr1 as [|e tr1 IH]; [reflexivity|].
  destruct e; cbn [bytes_read app]; rewrite IH; reflexivity.
Qed.

Lemma serial_text_app tr1 tr2 :
  serial_text (tr1 ++ tr2) = (serial_text tr1 ++ serial_text tr2)%string.
Proof.
  induction tr1 as [|e tr1 IH]; [reflexivity|].
  cbn [serial_text app]. rewrite IH. now rewrite append_assoc.
Qed.

Lemma burst_view burst :
  sweep_view (List.flat_map byte_events burst) = [] /\
  clock_reads (List.flat_map byte_events burst) = [] /\
  bytes_read (List.flat_map byte_events burst) = burst.
Proof.
  induction burst as [|r burst (IH1 & IH2 & IH3)]; [auto|].
  cbn [List.flat_map]. rewrite sweep_view_app, clock_reads_app, bytes_read_app.
  rewrite IH1, IH2, IH3. unfold byte_events.
  destruct (byte_prints_view (to_uint8 r) (to_uint8_range r)) as (H1 & H2 & H3).
  unfold sweep_view. cbn [List.filter sweep_keep is_window_footer clock_reads
    bytes_read]. rewrite H1, H2, H3. auto.
Qed.

Lemma window_events_view busy : forall bursts,
  sweep_view (window_events busy bursts) = [] /\
  clock_reads (window_events busy bursts) = busy /\
  bytes_read (window_events busy bursts) = window_bytes busy bursts.
Proof.
  induction busy as [|t busy IH]; intros bursts; [auto|].
  destruct (IH (List.tl bursts)) as (IH1 & IH2 & IH3).
  destruct (burst_view (List.hd [] bursts)) as (H1 & H2 & H3).
  cbn [window_events].
  change (millis_is t :: ?l) with ([millis_is t] ++ l).
  rewrite !sweep_view_app, !clock_reads_app, !bytes_read_app.
  rewrite IH1, IH2, IH3, H1, H2, H3. cbn.
  repeat split. unfold window_bytes.
  destruct bursts as [|burst bursts]; cbn; [now rewrite take_nil | reflexivity].
Qed.

Lemma window_trace_view start busy fin bursts :
  sweep_view (window_trace start busy fin bursts) =
    [Serial_print "bytes read: "] /\
  clock_reads (window_trace start busy fin bursts) = start :: busy ++ [fin] /\
  bytes_read (window_trace start busy fin bursts) = window_bytes busy bursts.
Proof.
  destruct (window_events_view busy bursts) as (H1 & H2 & H3).
  unfold window_trace, window_footer.
  change (millis_is start :: ?l) with ([millis_is start] ++ l).
  rewrite !sweep_view_app, !clock_reads_app, !bytes_read_app.
  rewrite H1, H2, H3. cbn. rewrite app_nil_r. auto.
Qed.

Lemma window_span_reads start busy fin tr :
  clock_reads tr = start :: busy ++ [fin] -> window_span tr = fin - start.
Proof.
  intros H. unfold window_span. rewrite H.
  change (start :: busy ++ [fin]) with ((start :: busy) ++ [fin]).
  rewrite List.last_last. reflexivity.
Qed.

Lemma dump_format_app l1 l2 :
  dump_format (l1 ++ l2) = (dump_format l1 ++ dump_format l2)%string.
Proof.
  induction l1 as [|r l1 IH]; [reflexivity|].
  cbn [dump_format app]. rewrite IH. now rewrite append_assoc.
Qed.

Lemma burst_text burst :
  serial_text (List.flat_map byte_events burst) = dump_format burst.
Proof.
  induction burst as [|r burst IH]; [reflexivity|].
  cbn [List.flat_map dump_format]. rewrite serial_text_app, IH.
  unfold byte_events. cbn [serial_text event_text].
  rewrite byte_prints_format by apply to_uint8_range. reflexivity.
Qed.

Lemma window_events_text busy : forall bursts,
  serial_text (window_events busy bursts) =
  dump_format (window_bytes busy bursts).
Proof.
  induction busy as [|t busy IH]; intros bursts; [reflexivity|].
  cbn [window_events serial_text event_text].
  rewrite serial_text_app, burst_text, IH. cbn [append].
  unfold window_bytes. destruct bursts as [|burst bursts].
  - cbn. now rewrite take_nil.
  - cbn [List.hd List.tl length take concat]. now rewrite dump_format_app.
Qed.

(** ** One combination *)

Lemma tryCombo_runs name rx tx baud start busy fin rest bursts tr :
  Forall (fun t => t < deadline start 3000) busy ->
  deadline start 3000 <= fin ->
  tryCombo name rx tx baud (World (start :: busy ++ fin :: rest) bursts tr) =
  Some (tt, World rest (drop (length busy) bursts)
              (tr ++ combo_header name rx tx baud ++
               window_trace start busy fin bursts)).
Proof.
  intros Hbusy Hfin. unfold tryCombo.
  repeat (unfold bind at 1; cbn [emit clock Debug_GNSS.rx trace]).
  rewrite (dumpForMs_runs 3000 start busy fin rest bursts _ Hbusy Hfin).
  unfold combo_header. rewrite <- !app_assoc. reflexivity.
Qed.

(** ** The sweep *)

Lemma sweeps_emits m evs : emits m tt evs -> sweeps m 0 (sweep_view evs).
Proof.
  intros Hm k w Hk. eexists. split; [apply Hm|]. cbn [clock trace].
  split; [exact Hk | apply sweep_view_app].
Qed.

Lemma sweeps_bind m1 m2 n1 n2 v1 v2 :
  sweeps m1 n1 v1 -> sweeps m2 n2 v2 ->
  sweeps (m1 ;; m2) (n1 + n2) (v1 ++ v2).
Proof.
  intros H1 H2 k w Hk. rewrite <- Nat.add_assoc in Hk.
  destruct (H1 _ _ Hk) as (w1 & Hr1 & Hf1 & Hv1).
  destruct (H2 _ _ Hf1) as (w2 & Hr2 & Hf2 & Hv2).
  exists w2. rewrite (bind_runs _ _ _ _ _ Hr1), Hr2, Hv2, Hv1.
  now rewrite <- app_assoc.
Qed.

Lemma sweeps_as m n n' v v' :
  sweeps m n v -> n = n' -> v = v' -> sweeps m n' v'.
Proof. now intros H <- <-. Qed.

Lemma sweeps_tryCombo name rx tx baud :
  sweep_view (combo_header name rx tx baud) = [Serial1_begin baud rx tx] ->
  sweeps (tryCombo name rx tx baud) 1
    [Serial1_begin baud rx tx; Serial_print "bytes read: "].
Proof.
  intros Hhead k [clk bursts tr] Hk. cbn [clock trace Nat.add] in *.
  inversion Hk as [|? start busy fin rest Hbusy Hfin Hrest]; subst.
  eexists. split; [apply tryCombo_runs; assumption|]. cbn [clock trace].
  split; [assumption|].
  destruct (window_trace_view start busy fin bursts) as (Hv & _).
  rewrite !sweep_view_app, Hv, Hhead. reflexivity.
Qed.

Ltac sweep_step :=
  lazymatch goal with
  | |- sweeps (bind _ _) _ _ => eapply sweeps_bind
  | |- sweeps (tryCombo _ _ _ _) _ _ =>
      apply sweeps_tryCombo; vm_compute; reflexivity
  | |- sweeps (emit _) _ _ => apply sweeps_emits, emits_emit
  | |- sweeps (setGnssPower _) _ _ => apply sweeps_emits, setGnssPower_emits
  | |- sweeps (setWake _) _ _ => apply sweeps_emits, setWake_emits
  | |- sweeps pulseReset _ _ => apply sweeps_emits, pulseReset_emits
  end.

Lemma sweep_body_sweeps p w :
  sweeps (sweep_body p w) 6
    ([digitalWrite VGNSS_CTRL p; digitalWrite GNSS_WAKE w] ++
     List.flat_map (fun pins =>
       List.flat_map (fun baud =>
         [Serial1_begin baud (fst pins) (snd pins);
          Serial_print "bytes read: "]) baud_rates) pin_variants).
Proof.
  unfold sweep_body. eapply sweeps_as.
  - repeat sweep_step.
  - reflexivity.
  - destruct p, w; reflexivity.
Qed.

Lemma setup_sweeps : sweeps setup 24 sweep_plan.
Proof.
  unfold setup, for2. eapply sweeps_as.
  - repeat lazymatch goal with
           | |- sweeps (sweep_body _ _) _ _ => apply sweep_body_sweeps
           | |- _ => sweep_step
           end.
  - reflexivity.
  - reflexivity.
Qed.

Lemma loops_ret n w : loops n w = Some (tt, w).
Proof. induction n as [|n IH]; [reflexivity|]. cbn. exact IH. Qed.

Lemma footer_kept e : is_window_footer e = true -> sweep_keep e = true.
Proof. destruct e; cbn; try discriminate; auto. Qed.

Lemma capture_windows_view tr :
  capture_windows tr = capture_windows (sweep_view tr).
Proof.
  unfold capture_windows, sweep_view. f_equal.
  induction tr as [|e tr IH]; [reflexivity|]. cbn [List.filter].
  destruct (is_window_footer e) eqn:He.
  - rewrite (footer_kept e He). cbn [List.filter]. rewrite He. now f_equal.
  - destruct (sweep_keep e); cbn [List.filter]; [rewrite He|]; exact IH.
Qed.

Lemma capture_windows_app tr1 tr2 :
  capture_windows (tr1 ++ tr2) = (capture_windows tr1 + capture_windows tr2)%nat.
Proof. unfold capture_windows. now rewrite List.filter_app, length_app. Qed.

Lemma silent_feeds : feeds 24 (clock silent).
Proof.
  cbn.
  repeat (apply (feeds_window _ 0 [] 3000);
          [constructor | vm_compute; discriminate | ]).
  apply feeds_none.
Qed.

(** ** The claims *)

(** C1, amended.  [setup] runs once and [loop] adds nothing to it.  On every
    clock script that lets its windows end, the sweep is the plan: power
    outermost, then wake, then pin variant A before B, then 9600, 38400 and
    115200 baud, one window per combination.  That makes 6 windows for each
    of the 4 power and wake combinations, 24 windows in all. *)
Theorem setup_sweep_24_windows w :
  feeds 24 (clock w) ->
  exists w',
    (forall n, arduino_main n w = Some (tt, w')) /\
    sweep_view (trace w') = sweep_view (trace w) ++ sweep_plan /\
    capture_windows (trace w') = (capture_windows (trace w) + 24)%nat.
Proof.
  intros Hfeeds. destruct (setup_sweeps 0%nat w Hfeeds) as (w' & Hrun & _ & Hview).
  exists w'. split; [|split].
  - intros n. unfold arduino_main.
    rewrite (bind_runs _ _ _ _ _ Hrun). apply loops_ret.
  - exact Hview.
  - rewrite (capture_windows_view (trace w')), Hview, capture_windows_app.
    rewrite <- capture_windows_view. reflexivity.
Qed.

Lemma setup_sweep_24_windows_witness :
  feeds 24 (clock silent) /\
  exists w',
    (forall n, arduino_main n silent = Some (tt, w')) /\
    sweep_view (trace w') = sweep_view (trace silent) ++ sweep_plan /\
    capture_windows (trace w') = (capture_windows (trace silent) + 24)%nat.
Proof.
  split; [exact silent_feeds | exact (setup_sweep_24_windows silent silent_feeds)].
Defined.

(** C1 as stated fails: with a silent receiver [setup] ends after 24 capture
    windows, not 144. *)
Lemma setup_windows_not_144 :
  exists w', setup silent = Some (tt, w') /\
             capture_windows (trace w') = 24%nat /\
             capture_windows (trace w') <> 144%nat.
Proof.
  destruct (setup silent) as [[[] w']|] eqn:Hrun.
  - exists w'. split; [reflexivity|].
    assert (H : option_map (fun r => capture_windows (trace (snd r)))
                  (setup silent) = Some 24%nat) by (vm_compute; reflexivity).
    rewrite Hrun in H. cbn in H. injection H as ->.
    split; [reflexivity | discriminate].
  - vm_compute in Hrun. discriminate.
Qed.

(** C4, amended.  The window [tryCombo] opens starts with a reading [start]
    of the clock and ends at the first test of the loop condition whose
    reading [fin] has reached [start + 3000]; the condition is tested only
    between bursts, so the window lasts [fin - start], at least 3000ms.
    After it the number of bytes read in the window is printed (modulo
    2^32), behind the dump of those bytes. *)
Theorem tryCombo_window name rxp txp baud start busy fin rest bursts tr :
  0 <= start -> start + 3000 < 2 ^ 32 ->
  Forall (fun t => t < start + 3000) busy ->
  start + 3000 <= fin ->
  exists win body,
    tryCombo name rxp txp baud (World (start :: busy ++ fin :: rest) bursts tr) =
      Some (tt, World rest (drop (length busy) bursts)
                  (tr ++ combo_header name rxp txp baud ++ win)) /\
    clock_reads win = start :: busy ++ [fin] /\
    window_span win = fin - start /\
    3000 <= window_span win /\
    bytes_read win = window_bytes busy bursts /\
    win = body ++
          window_footer (to_uint32 (Z.of_nat (length (bytes_read win)))) /\
    serial_text body = dump_format (bytes_read win).
Proof.
  intros Hs0 Hs1 Hbusy Hfin.
  assert (Hd : deadline start 3000 = start + 3000).
  { unfold deadline, to_uint32. apply Z.mod_small. lia. }
  destruct (window_trace_view start busy fin bursts) as (_ & Hreads & Hbytes).
  exists (window_trace start busy fin bursts),
         (millis_is start :: window_events busy bursts ++ [millis_is fin]).
  split; [apply tryCombo_runs; rewrite Hd; assumption|].
  rewrite (window_span_reads _ _ _ _ Hreads), Hbytes.
  repeat split; try assumption; try lia.
  - unfold window_trace. rewrite counted_uint32 by lia. cbn [app].
    rewrite <- app_assoc. reflexivity.
  - cbn [serial_text event_text append].
    rewrite serial_text_app, window_events_text. cbn [serial_text event_text].
    rewrite !append_empty_r. reflexivity.
Qed.

Lemma tryCombo_window_witness :
  exists win body,
    tryCombo "PinsA" RXA TXA 9600 late =
      Some (tt, World [] [] ([] ++ combo_header "PinsA" RXA TXA 9600 ++ win)) /\
    clock_reads win = [1000; 3999; 4005] /\
    window_span win = 4005 - 1000 /\
    3000 <= window_span win /\
    bytes_read win = [36; 71; 80; 71; 71; 65; 44; 49; 50; 51; 53; 49; 57] /\
    win = body ++
          window_footer (to_uint32 (Z.of_nat (length (bytes_read win)))) /\
    serial_text body = dump_format (bytes_read win).
Proof.
  apply (tryCombo_window "PinsA" RXA TXA 9600 1000 [3999] 4005 []
           [[36; 71; 80; 71; 71; 65; 44; 49; 50; 51; 53; 49; 57]] []).
  - lia.
  - reflexivity.
  - repeat constructor.
  - vm_compute. discriminate.
Defined.

(** C4 as stated fails: 13 bytes are pending at the test made at 3999, the
    next test comes at 4005, and the window has lasted 3005ms. *)
Lemma tryCombo_window_not_3000 :
  exists w', tryCombo "PinsA" RXA TXA 9600 late = Some (tt, w') /\
             window_span (trace w') = 3005 /\
             window_span (trace w') <> 3000.
Proof.
  eexists. split; [vm_compute; reflexivity|].
  split; [vm_compute; reflexivity | vm_compute; discriminate].
Qed.

(** C5, amended.  Every byte read in a window is counted and printed as two
    uppercase hexadecimal digits, a space, the character itself when it is in
    0x20..0x7E and a dot otherwise, and a space.  Byte 0x07 gives "07 . ",
    byte 0x41 gives "41 A " and byte 0x00 gives "00 . ". *)
Theorem dump_byte_format :
  (forall r cnt w, exists prints,
     dump_byte r cnt w =
       Some (to_uint32 (cnt + 1),
             World (clock w) (rx w) (trace w ++ Serial1_read_is r :: prints)) /\
     serial_text prints = hex_ascii_format (to_uint8 r)) /\
  dump_text 7 = "07 . "%string /\
  dump_text 65 = "41 A "%string /\
  dump_text 0 = "00 . "%string.
Proof.
  split; [|repeat split; reflexivity].
  intros r cnt w. exists (byte_prints (to_uint8 r)).
  split; [apply dump_byte_emits | apply byte_prints_format, to_uint8_range].
Qed.

(** C5 as stated fails: byte 0x07 is not printed as "07 " alone, the dot and
    its space follow. *)
Lemma dump_text_7_not_hex_only :
  dump_text 7 = "07 . "%string /\ dump_text 7 <> "07 "%string.
Proof. split; [reflexivity | vm_compute; discriminate]. Qed.

End DebugFacts.

(** * Facts about the GPS display demo *)

Module DisplayFacts.
Import GPSwithOLED.
Local Open Scope sketch_scope.

(** ** C strings *)

Lemma starts_with_spec needle : forall s,
  starts_with needle s = true <-> exists after, s = needle ++ after.
Proof.
  induction needle as [|a needle IH]; intros s; cbn [starts_with].
  - split; [intros _; now exists s | reflexivity].
  - destruct s as [|b s].
    + split; [discriminate | intros [after Hs]; discriminate].
    + rewrite andb_true_iff, Ascii.eqb_eq, IH. split.
      * intros [-> [after ->]]. now exists after.
      * intros [after Hs]. injection Hs as -> ->. split; [reflexivity | now exists after].
Qed.

Lemma strstr_spec needle : forall s,
  to_bool (strstr s needle) = true <->
  exists before after, s = before ++ needle ++ after.
Proof.
  induction s as [|c s IH]; cbn [strstr].
  - destruct (starts_with needle []) eqn:Hp; cbn [to_bool].
    + apply starts_with_spec in Hp as [after Hs].
      split; [intros _; exists [], after; exact Hs | reflexivity].
    + split; [discriminate|]. intros (before & after & Hs).
      symmetry in Hs. apply app_eq_nil in Hs as [-> Hs].
      assert (Hsw : starts_with needle [] = true)
        by (apply starts_with_spec; exists after; now rewrite Hs).
      congruence.
  - destruct (starts_with needle (c :: s)) eqn:Hp; cbn [to_bool].
    + apply starts_with_spec in Hp as [after Hs].
      split; [intros _; exists [], after; exact Hs | reflexivity].
    + assert (Hmap : to_bool (option_map S (strstr s needle)) =
                     to_bool (strstr s needle))
        by (destruct (strstr s needle); reflexivity).
      rewrite Hmap, IH. split.
      * intros (before & after & ->). now exists (c :: before), after.
      * intros (before & after & Hs). destruct before as [|b before].
        -- assert (Hsw : starts_with needle (c :: s) = true)
             by (apply starts_with_spec; exists after; exact Hs).
           congruence.
        -- injection Hs as -> ->. now exists before, after.
Qed.

Lemma strstr_contains needle line :
  to_bool (strstr line (list_ascii_of_string needle)) = true <->
  contains needle line.
Proof. apply strstr_spec. Qed.

(** An array with a NUL holds a string that ends before it. *)
Lemma c_str_before_NUL : forall (buf : list ascii) (n : nat),
  buf !! n = Some NUL ->
  exists s, c_str buf = Some s /\ (length s <= n)%nat.
Proof.
  induction buf as [|c buf IH]; intros n Hn; [discriminate|].
  cbn [c_str]. destruct (Ascii.eqb c NUL) eqn:Hc.
  - exists []. split; [reflexivity | cbn; lia].
  - destruct n as [|n].
    + cbn in Hn. injection Hn as ->. discriminate.
    + destruct (IH n Hn) as (s & -> & Hlen). exists (c :: s).
      split; [reflexivity | cbn; lia].
Qed.

(** The string of an array that starts with [s], NUL-free, then a NUL. *)
Lemma c_str_take : forall (s buf : list ascii),
  take (length s) buf = s ->
  buf !! length s = Some NUL ->
  Forall (fun c => c <> NUL) s ->
  c_str buf = Some s.
Proof.
  induction s as [|c s IH]; intros buf Htake Hnul Hs.
  - destruct buf as [|b buf]; [discriminate|]. cbn in Hnul.
    injection Hnul as ->. reflexivity.
  - destruct buf as [|b buf]; [discriminate|]. cbn in Htake, Hnul.
    injection Htake as -> Htake. inversion Hs as [|? ? Hc Hs']; subst.
    cbn [c_str]. apply Ascii.eqb_neq in Hc. rewrite Hc.
    now rewrite (IH buf Htake Hnul Hs').
Qed.

Section Sketch.

Context {gps : Type} `{TinyGPSPlus gps}.

(** ** The line buffer *)

Lemma boot_buffer_ok (g : gps) shown printed clk n :
  buffer_ok (boot g shown printed clk n).
Proof. repeat split; cbn; lia. Qed.

Lemma buffer_char_runs c (st : sketch gps) :
  buffer_ok st -> buffer_char c st = Some (tt, buffered c st).
Proof.
  intros (Hlen & Hidx & Hnul). unfold buffer_char, buffered, appended.
  cbv [bind when get modify ret store_txtBuf fault].
  destruct (Ascii.eqb c dollar); cbn [idx with_idx];
    change (sizeof_txtBuf - 1) with 79.
  - cbn. reflexivity.
  - destruct (Z.ltb_spec (idx st) 79) as [Hlt|Hge]; [|destruct st; reflexivity].
    assert (Hu : to_uint8 (idx st + 1) = idx st + 1)
      by (unfold to_uint8; apply Z.mod_small; lia).
    rewrite Hu. unfold sizeof_txtBuf.
    replace ((0 <=? idx st) && (idx st <? 80)) with true
      by (symmetry; apply andb_true_iff; lia).
    replace ((0 <=? idx st + 1) && (idx st + 1 <? 80)) with true
      by (symmetry; apply andb_true_iff; lia).
    reflexivity.
Qed.

Lemma appended_ok c (st : sketch gps) :
  buffer_ok st ->
  length (fst (appended c st)) = 80%nat /\
  0 <= snd (appended c st) <= 79 /\
  fst (appended c st) !! 79%nat = Some NUL /\
  fst (appended c st) !! Z.to_nat (snd (appended c st)) = Some NUL.
Proof.
  intros (Hlen & Hidx & Hnul). unfold appended.
  set (i := if Ascii.eqb c dollar then 0 else idx st).
  assert (Hi : 0 <= i <= 79) by (subst i; destruct (Ascii.eqb c dollar); lia).
  change (sizeof_txtBuf - 1) with 79.
  destruct (Z.ltb_spec i 79) as [Hlt|Hge]; cbn [fst snd].
  - rewrite !length_insert. repeat split; try lia.
    + destruct (decide (Z.to_nat (i + 1) = 79%nat)) as [->|Hne].
      * apply list_lookup_insert_eq. rewrite length_insert. lia.
      * rewrite list_lookup_insert_ne by exact Hne.
        rewrite list_lookup_insert_ne by lia. exact Hnul.
    + apply list_lookup_insert_eq. rewrite length_insert. lia.
  - repeat split; try lia; try exact Hnul.
    replace i with 79 by lia. exact Hnul.
Qed.

Lemma end_of_line_other c (st : sketch gps) :
  c <> newline -> end_of_line c st = Some (tt, st).
Proof.
  intros Hc. unfold end_of_line. apply Ascii.eqb_neq in Hc. now rewrite Hc.
Qed.

Lemma end_of_line_newline (st : sketch gps) line :
  c_str (txtBuf st) = Some line ->
  end_of_line newline st = Some (tt, line_seen line st).
Proof.
  intros Hline. unfold end_of_line, line_seen.
  cbv [bind when get modify ret strstr_txtBuf millis fault]. cbn [Ascii.eqb newline
    Bool.eqb]. rewrite Hline.
  destruct (to_bool (strstr line (list_ascii_of_string "ANTENNA"))).
  - cbn [txtBuf with_antennaOpen]. rewrite Hline. reflexivity.
  - reflexivity.
Qed.

Lemma buffered_ok c (st : sketch gps) :
  buffer_ok st ->
  buffer_ok (buffered c st) /\
  txtBuf (buffered c st) !! Z.to_nat (idx (buffered c st)) = Some NUL.
Proof.
  intros Hok. destruct (appended_ok c st Hok) as (H1 & H2 & H3 & H4).
  unfold buffer_ok, buffered. cbn [txtBuf idx with_idx with_txtBuf]. auto.
Qed.

Lemma line_seen_buffer line (st : sketch gps) :
  txtBuf (line_seen line st) = txtBuf st /\ idx (line_seen line st) = 0.
Proof. unfold line_seen. destruct (to_bool _); auto. Qed.

(** The whole of [sniff]. *)
Lemma sniff_runs c (st : sketch gps) :
  buffer_ok st ->
  exists line,
    c_str (txtBuf (buffered c st)) = Some line /\ (length line <= 79)%nat /\
    sniff c st =
    Some (tt, if Ascii.eqb c newline then line_seen line (buffered c st)
              else buffered c st).
Proof.
  intros Hok. destruct (buffered_ok c st Hok) as ((_ & _ & Hnul) & _).
  destruct (c_str_before_NUL _ _ Hnul) as (line & Hline & Hlen).
  exists line. split; [exact Hline|]. split; [exact Hlen|].
  unfold sniff. rewrite (bind_runs _ _ _ _ _ (buffer_char_runs c st Hok)).
  destruct (Ascii.eqb_spec c newline) as [->|Hc].
  - now apply end_of_line_newline.
  - now apply end_of_line_other.
Qed.

Lemma ingest_char_sniff c (st : sketch gps) :
  ingest_char c st = sniff c (with_GPS (gps_encode c (GPS st)) st).
Proof. reflexivity. Qed.

Lemma with_GPS_buffer_ok g (st : sketch gps) :
  buffer_ok st -> buffer_ok (with_GPS g st).
Proof. exact (fun H => H). Qed.

(** One character keeps the buffer in order. *)
Lemma ingest_char_ok c (st : sketch gps) :
  buffer_ok st ->
  exists st', ingest_char c st = Some (tt, st') /\ buffer_ok st'.
Proof.
  intros Hok. rewrite ingest_char_sniff.
  apply (with_GPS_buffer_ok (gps_encode c (GPS st))) in Hok.
  destruct (sniff_runs c _ Hok) as (line & _ & _ & ->).
  destruct (buffered_ok c _ Hok) as (Hok' & _).
  eexists. split; [reflexivity|].
  destruct (Ascii.eqb c newline); [|exact Hok'].
  destruct Hok' as (Hlen & Hidx & Hnul).
  destruct (line_seen_buffer line (buffered c (with_GPS (gps_encode c (GPS st)) st)))
    as [Hb Hi].
  unfold buffer_ok. rewrite Hb, Hi. repeat split; try assumption; lia.
Qed.

Lemma ingest_ok chars : forall st : sketch gps,
  buffer_ok st ->
  exists st', ingest chars st = Some (tt, st') /\ buffer_ok st'.
Proof.
  induction chars as [|c chars IH]; intros st Hok.
  - exists st. split; [reflexivity | exact Hok].
  - destruct (ingest_char_ok c st Hok) as (st1 & Hrun1 & Hok1).
    destruct (IH st1 Hok1) as (st' & Hrun & Hok').
    exists st'. split; [|exact Hok'].
    cbn [ingest]. now rewrite (bind_runs _ _ _ _ _ Hrun1).
Qed.

(** Other characters than the line feed leave the antenna status and the
    clock alone. *)
Lemma ingest_char_keeps_antenna c (st : sketch gps) :
  buffer_ok st -> c <> newline ->
  exists st', ingest_char c st = Some (tt, st') /\
    antennaOpen st' = antennaOpen st /\
    lastAntennaMsg st' = lastAntennaMsg st /\
    millis_calls st' = millis_calls st.
Proof.
  intros Hok Hc. rewrite ingest_char_sniff.
  apply (with_GPS_buffer_ok (gps_encode c (GPS st))) in Hok.
  destruct (sniff_runs c _ Hok) as (line & _ & _ & ->).
  apply Ascii.eqb_neq in Hc. rewrite Hc. eexists. split; [reflexivity|].
  auto.
Qed.

(** *** Lines *)

Lemma line_so_far_dollar (st : sketch gps) :
  buffer_ok st ->
  exists st', ingest_char dollar st = Some (tt, st') /\
              line_so_far [dollar] st'.
Proof.
  intros Hok. rewrite ingest_char_sniff.
  apply (with_GPS_buffer_ok (gps_encode dollar (GPS st))) in Hok.
  destruct (sniff_runs dollar _ Hok) as (line & _ & _ & ->).
  cbn [Ascii.eqb dollar newline Bool.eqb]. eexists. split; [reflexivity|].
  destruct (buffered_ok dollar _ Hok) as (Hok' & _).
  split; [exact Hok'|]. destruct Hok as (Hlen & _ & _).
  unfold buffered, appended. cbn [Ascii.eqb dollar Bool.eqb].
  cbn [idx txtBuf with_idx with_txtBuf fst snd Z.ltb Z.compare sizeof_txtBuf
    Z.sub Z.add Z.opp Z.pos_sub Pos.pred_double length with_GPS].
  cbn in Hlen.
  destruct (txtBuf st) as [|b0 [|b1 buf]]; try (cbn in Hlen; lia).
  change (0 <? sizeof_txtBuf - 1) with true. cbn. repeat split.
Qed.

Lemma line_so_far_char s c (st : sketch gps) :
  line_so_far s st -> (length s < 79)%nat ->
  c <> dollar -> c <> newline ->
  exists st', ingest_char c st = Some (tt, st') /\
              line_so_far (s ++ [c]) st'.
Proof.
  intros (Hok & Hidx & Htake & Hnul) Hlen Hd Hn. rewrite ingest_char_sniff.
  set (st0 := with_GPS (gps_encode c (GPS st)) st).
  assert (Hok0 : buffer_ok st0) by exact Hok.
  destruct (sniff_runs c _ Hok0) as (line & _ & _ & ->).
  apply Ascii.eqb_neq in Hd, Hn. rewrite Hn.
  eexists. split; [reflexivity|].
  destruct (buffered_ok c _ Hok0) as (Hok' & _). split; [exact Hok'|].
  destruct Hok as (Hl & _ & _).
  unfold buffered, appended. rewrite Hd. change (idx st0) with (idx st).
  change (txtBuf st0) with (txtBuf st). change (sizeof_txtBuf - 1) with 79.
  destruct (Z.ltb_spec (idx st) 79) as [_|Hge]; [|lia].
  cbn [idx txtBuf with_idx with_txtBuf fst snd].
  rewrite Hidx, length_app. cbn [length].
  replace (Z.to_nat (Z.of_nat (length s) + 1)) with (S (length s)) by lia.
  rewrite Nat2Z.id, Nat.add_1_r.
  repeat split.
  - lia.
  - rewrite take_insert_ge by lia.
    rewrite (take_S_r _ _ c) by (apply list_lookup_insert_eq; lia).
    rewrite take_insert_ge by lia. now rewrite Htake.
  - apply list_lookup_insert_eq. rewrite length_insert. lia.
Qed.

Lemma line_so_far_chars body : forall s (st : sketch gps),
  line_so_far s st -> (length s + length body <= 79)%nat ->
  Forall (fun c => c <> dollar /\ c <> newline) body ->
  exists st', ingest body st = Some (tt, st') /\
              line_so_far (s ++ body) st'.
Proof.
  induction body as [|c body IH]; intros s st Hs Hlen Hbody.
  - exists st. rewrite app_nil_r. split; [reflexivity | exact Hs].
  - inversion Hbody as [|? ? [Hd Hn] Hbody']; subst. cbn [length] in Hlen.
    destruct (line_so_far_char s c st Hs ltac:(lia) Hd Hn) as (st1 & Hrun1 & Hs1).
    destruct (IH (s ++ [c]) st1 Hs1) as (st' & Hrun & Hs'); [|exact Hbody'|].
    + rewrite length_app. cbn [length]. lia.
    + exists st'. cbn [ingest]. rewrite (bind_runs _ _ _ _ _ Hrun1).
      split; [exact Hrun|]. now rewrite <- app_assoc in Hs'.
Qed.

Lemma line_so_far_newline s (st : sketch gps) :
  line_so_far s st -> (length s < 79)%nat ->
  Forall (fun c => c <> NUL) s ->
  exists st', ingest_char newline st = Some (tt, st') /\
    buffer_ok st' /\ idx st' = 0 /\
    c_str (txtBuf st') = Some (s ++ [newline]).
Proof.
  intros Hs Hlen Hnul.
  assert (Hl : line_so_far (s ++ [newline])
                 (buffered newline (with_GPS (gps_encode newline (GPS st)) st))).
  { destruct Hs as (Hok & Hidx & Htake & Hn).
    set (st0 := with_GPS (gps_encode newline (GPS st)) st).
    assert (Hok0 : buffer_ok st0) by exact Hok.
    destruct (buffered_ok newline _ Hok0) as (Hok' & _). split; [exact Hok'|].
    destruct Hok as (Hl & _ & _).
    unfold buffered, appended. cbn [Ascii.eqb dollar newline Bool.eqb].
    change (idx st0) with (idx st). change (txtBuf st0) with (txtBuf st).
    change (sizeof_txtBuf - 1) with 79.
    destruct (Z.ltb_spec (idx st) 79) as [_|Hge]; [|lia].
    cbn [idx txtBuf with_idx with_txtBuf fst snd].
    rewrite Hidx, length_app. cbn [length].
    replace (Z.to_nat (Z.of_nat (length s) + 1)) with (S (length s)) by lia.
    rewrite Nat2Z.id, Nat.add_1_r.
    repeat split.
    - lia.
    - rewrite take_insert_ge by lia.
      rewrite (take_S_r _ _ newline) by (apply list_lookup_insert_eq; lia).
      rewrite take_insert_ge by lia. now rewrite Htake.
    - apply list_lookup_insert_eq. rewrite length_insert. lia. }
  destruct Hs as (Hok & _). rewrite ingest_char_sniff.
  apply (with_GPS_buffer_ok (gps_encode newline (GPS st))) in Hok.
  destruct (sniff_runs newline _ Hok) as (line & Hline & _ & ->).
  cbn [Ascii.eqb newline Bool.eqb].
  destruct Hl as (Hok' & _ & Htake' & Hnul').
  assert (Hc : c_str (txtBuf (buffered newline
                 (with_GPS (gps_encode newline (GPS st)) st))) =
               Some (s ++ [newline])).
  { apply c_str_take; [exact Htake' | exact Hnul' |].
    apply Forall_app. split; [exact Hnul|]. repeat constructor. discriminate. }
  rewrite Hc in Hline. injection Hline as <-.
  eexists. split; [reflexivity|].
  match goal with |- context [line_seen ?l ?b] =>
    destruct (line_seen_buffer l b) as [Hb Hi] end.
  unfold buffer_ok. rewrite Hb, Hi.
  destruct Hok' as (H1 & H2 & H3). repeat split; try assumption; lia.
Qed.

Lemma ingest_app l1 : forall l2 (st : sketch gps),
  ingest (l1 ++ l2) st =
  match ingest l1 st with
  | Some (_, st1) => ingest l2 st1
  | None => None
  end.
Proof.
  induction l1 as [|c l1 IH]; intros l2 st; [reflexivity|].
  cbn [app ingest]. unfold bind.
  destruct (ingest_char c st) as [[[] st1]|]; [apply IH | reflexivity].
Qed.

(** A sentence that fits is buffered whole, whatever the buffer held. *)
Lemma sentence_buffered body (st : sketch gps) :
  buffer_ok st -> (length body <= 77)%nat ->
  Forall (fun c => c <> dollar /\ c <> newline) body ->
  Forall (fun c => c <> NUL) body ->
  exists st', ingest (dollar :: body ++ [newline]) st = Some (tt, st') /\
    buffer_ok st' /\ idx st' = 0 /\
    c_str (txtBuf st') = Some (dollar :: body ++ [newline]).
Proof.
  intros Hok Hlen Hbody Hnul.
  destruct (line_so_far_dollar st Hok) as (st1 & Hrun1 & Hs1).
  destruct (line_so_far_chars body [dollar] st1 Hs1) as (st2 & Hrun2 & Hs2);
    [cbn [length]; lia | exact Hbody |].
  destruct (line_so_far_newline _ st2 Hs2) as (st3 & Hrun3 & Hok3 & Hi3 & Hc3).
  { cbn [app length]. lia. }
  { constructor; [discriminate | exact Hnul]. }
  exists st3. split; [|auto].
  cbn [ingest]. rewrite (bind_runs _ _ _ _ _ Hrun1), ingest_app, Hrun2.
  cbn [ingest]. rewrite (bind_runs _ _ _ _ _ Hrun3). reflexivity.
Qed.

(** ** The render pass *)

Lemma badge_texts_app l1 l2 :
  badge_texts (l1 ++ l2) = badge_texts l1 ++ badge_texts l2.
Proof.
  induction l1 as [|c l1 IH]; [reflexivity|]. cbn [app badge_texts].
  destruct c as [| |x y text| |]; try exact IH.
  destruct ((x =? 127) && (y =? 0)); [|exact IH]. cbn [app]. now rewrite IH.
Qed.


Ltac fields :=
  cbn [GPS antennaOpen lastAntennaMsg txtBuf idx lastUi counter oled serial
       millis_at millis_calls with_GPS with_antennaOpen with_lastAntennaMsg
       with_txtBuf with_idx with_lastUi with_counter with_oled with_serial
       with_millis_calls].

Lemma draw_searching_runs (st : sketch gps) :
  draw_searching st =
  Some (tt, with_oled (oled st ++ searching_calls (counter st))
              (with_counter (to_int32 (counter st + 1)) st)).
Proof.
  unfold draw_searching, searching_calls.
  cbv [bind get modify display_call ret].
  cbn [oled counter with_oled with_counter]. rewrite <- !app_assoc. reflexivity.
Qed.

Lemma draw_antenna_runs (st : sketch gps) :
  draw_antenna st =
  Some (tt, with_oled
              (oled st ++
               antenna_calls (antennaOpen st)
                 (to_uint32 (millis_at st (millis_calls st)))
                 (lastAntennaMsg st))
              (with_millis_calls (S (millis_calls st)) st)).
Proof.
  unfold draw_antenna, antenna_calls.
  cbv [bind get modify display_call ret millis when].
  cbn [oled lastAntennaMsg antennaOpen millis_at millis_calls with_oled
    with_millis_calls].
  destruct (sub32 _ _ <? 5000);
    cbn [oled antennaOpen with_oled with_millis_calls];
    rewrite <- ?app_assoc; reflexivity.
Qed.

Lemma draw_uptime_runs (st : sketch gps) :
  draw_uptime st =
  Some (tt, with_oled
              (oled st ++
               [oled_drawString 127 54
                  (uptime_text (to_uint32 (millis_at st (millis_calls st))))])
              (with_millis_calls (S (millis_calls st)) st)).
Proof. reflexivity. Qed.

(** The branch with a fix draws three lines on the left and prints them; it
    leaves everything but the parser, the display and Serial as it was. *)
Lemma draw_fix_runs hasTime hasLoc (st : sketch gps) :
  exists g t la lo,
    draw_fix hasTime hasLoc st =
    Some (tt, with_oled
                (oled st ++
                 [oled_setTextAlignment TEXT_ALIGN_LEFT; oled_drawString 0 0 t;
                  oled_drawString 0 12 la; oled_drawString 0 24 lo])
                (with_serial (serial st ++ [t; la; lo]) (with_GPS g st))).
Proof.
  unfold draw_fix. cbv [bind get modify display_call Serial_println ret].
  destruct hasTime, hasLoc;
    cbn [GPS oled serial with_GPS with_oled with_serial fst snd];
    do 4 eexists; rewrite <- !app_assoc; cbn [app]; try reflexivity.
  all: destruct st; reflexivity.
Qed.

(** One render pass reads the clock three times: for [lastUi], for the
    antenna badge and for the uptime. *)
Lemma render_runs (st : sketch gps) :
  let searching :=
    negb (time_isValid (GPS st)) && negb (location_isValid (GPS st)) in
  let t1 := to_uint32 (millis_at st (millis_calls st)) in
  let t2 := to_uint32 (millis_at st (S (millis_calls st))) in
  let t3 := to_uint32 (millis_at st (S (S (millis_calls st)))) in
  exists body st',
    render st = Some (tt, st') /\
    oled st' =
      oled st ++ oled_clear :: body ++
      antenna_calls (antennaOpen st) t2 (lastAntennaMsg st) ++
      [oled_drawString 127 54 (uptime_text t3); oled_display] /\
    badge_texts body = [] /\
    (if searching
     then body = searching_calls (counter st) /\
          counter st' = to_int32 (counter st + 1) /\
          serial st' = serial st /\ GPS st' = GPS st
     else progress_fills body = [] /\ counter st' = counter st) /\
    lastUi st' = t1 /\
    antennaOpen st' = antennaOpen st /\
    lastAntennaMsg st' = lastAntennaMsg st /\
    txtBuf st' = txtBuf st /\ idx st' = idx st /\
    millis_at st' = millis_at st /\
    millis_calls st' = (3 + millis_calls st)%nat.
Proof.
  intros searching t1 t2 t3. unfold render.
  unfold bind at 1. cbn [millis]. unfold bind at 1. cbn [modify].
  unfold bind at 1. cbn [display_call modify].
  unfold bind at 1. cbn [get]. unfold bind at 1. cbn [get].
  cbn [GPS with_oled with_lastUi with_millis_calls].
  fold searching.
  set (st0 := with_oled _ _).
  destruct searching.
  - rewrite (bind_runs _ _ _ _ _ (draw_searching_runs st0)).
    rewrite (bind_runs _ _ _ _ _ (draw_antenna_runs _)).
    rewrite (bind_runs _ _ _ _ _ (draw_uptime_runs _)).
    exists (searching_calls (counter st)). eexists. split; [reflexivity|].
    subst st0. fields. rewrite <- !app_assoc. repeat split.
  - destruct (draw_fix_runs (time_isValid (GPS st)) (location_isValid (GPS st))
                st0) as (g & t & la & lo & Hfix).
    rewrite (bind_runs _ _ _ _ _ Hfix).
    rewrite (bind_runs _ _ _ _ _ (draw_antenna_runs _)).
    rewrite (bind_runs _ _ _ _ _ (draw_uptime_runs _)).
    exists [oled_setTextAlignment TEXT_ALIGN_LEFT; oled_drawString 0 0 t;
            oled_drawString 0 12 la; oled_drawString 0 24 lo].
    eexists. split; [reflexivity|].
    subst st0. fields. rewrite <- !app_assoc. cbn [app].
    split; [reflexivity|]. repeat split.
Qed.

(** The redraw test. *)
Lemma ui_update_runs (st : sketch gps) :
  let reported := location_isUpdated (GPS st) || time_isUpdated (GPS st) in
  let elapsed := sub32 (to_uint32 (millis_at st (millis_calls st))) (lastUi st) in
  ui_update st =
  if reported then render st
  else if 1000 <=? elapsed
       then render (with_millis_calls (S (millis_calls st)) st)
       else Some (tt, with_millis_calls (S (millis_calls st)) st).
Proof.
  intros reported elapsed. unfold ui_update.
  unfold bind at 1. cbn [get]. fold reported. destruct reported.
  - reflexivity.
  - unfold bind at 1. unfold bind at 1. cbn [millis].
    unfold bind at 1. cbn [get ret lastUi with_millis_calls]. fold elapsed.
    destruct (1000 <=? elapsed); reflexivity.
Qed.

(** Reading characters leaves the render state alone. *)
Lemma ingest_char_keeps_ui c (st : sketch gps) :
  buffer_ok st ->
  exists st', ingest_char c st = Some (tt, st') /\ buffer_ok st' /\
    oled st' = oled st /\ lastUi st' = lastUi st /\
    counter st' = counter st /\ serial st' = serial st /\
    millis_at st' = millis_at st.
Proof.
  intros Hok. destruct (ingest_char_ok c st Hok) as (st' & Hrun & Hok').
  exists st'. split; [exact Hrun|]. split; [exact Hok'|].
  rewrite ingest_char_sniff in Hrun.
  apply (with_GPS_buffer_ok (gps_encode c (GPS st))) in Hok.
  destruct (sniff_runs c _ Hok) as (line & _ & _ & Hs). rewrite Hs in Hrun.
  injection Hrun as <-. unfold line_seen.
  destruct (Ascii.eqb c newline); [destruct (to_bool _)|]; repeat split.
Qed.

Lemma ingest_keeps_ui chars : forall st : sketch gps,
  buffer_ok st ->
  exists st', ingest chars st = Some (tt, st') /\ buffer_ok st' /\
    oled st' = oled st /\ lastUi st' = lastUi st /\
    counter st' = counter st /\ serial st' = serial st /\
    millis_at st' = millis_at st.
Proof.
  induction chars as [|c chars IH]; intros st Hok.
  - exists st. split; [reflexivity|]. split; [exact Hok|]. repeat split.
  - destruct (ingest_char_keeps_ui c st Hok)
      as (st1 & Hrun1 & Hok1 & H1 & H2 & H3 & H4 & H5).
    destruct (IH st1 Hok1) as (st' & Hrun & Hok' & K1 & K2 & K3 & K4 & K5).
    exists st'. cbn [ingest]. rewrite (bind_runs _ _ _ _ _ Hrun1).
    split; [exact Hrun|]. split; [exact Hok'|]. repeat split; congruence.
Qed.

(** The UI update never fails, and leaves the line buffer alone. *)
Lemma ui_update_ok (st : sketch gps) :
  buffer_ok st ->
  exists st', ui_update st = Some (tt, st') /\ buffer_ok st' /\
    (counter st' = counter st \/ counter st' = to_int32 (counter st + 1)).
Proof.
  intros Hok. rewrite ui_update_runs.
  destruct (location_isUpdated (GPS st) || time_isUpdated (GPS st)).
  - destruct (render_runs st)
      as (body & st' & Hrun & _ & _ & Hc & _ & _ & _ & Hb & Hi & _).
    exists st'. split; [exact Hrun|]. unfold buffer_ok. rewrite Hb, Hi.
    split; [exact Hok|].
    destruct (negb _ && negb _); [right | left]; tauto.
  - destruct (1000 <=? _).
    + destruct (render_runs (with_millis_calls (S (millis_calls st)) st))
        as (body & st' & Hrun & _ & _ & Hc & _ & _ & _ & Hb & Hi & _).
      exists st'. split; [exact Hrun|]. unfold buffer_ok. rewrite Hb, Hi.
      split; [exact Hok|].
      destruct (negb _ && negb _); [right | left]; tauto.
    + eexists. split; [reflexivity|]. split; [exact Hok | left; reflexivity].
Qed.

Lemma loop_ok chars (st : sketch gps) :
  buffer_ok st ->
  exists st', loop chars st = Some (tt, st') /\ buffer_ok st' /\
    (counter st' = counter st \/ counter st' = to_int32 (counter st + 1)).
Proof.
  intros Hok.
  destruct (ingest_keeps_ui chars st Hok) as (st1 & Hrun1 & Hok1 & _ & _ & Hc & _).
  destruct (ui_update_ok st1 Hok1) as (st' & Hrun & Hok' & Hc').
  exists st'. unfold loop. rewrite (bind_runs _ _ _ _ _ Hrun1).
  rewrite <- Hc. auto.
Qed.

(** Every run keeps the buffer in order, and the tick counter counts at most
    one per call of [loop]. *)
Lemma loops_ok deliveries : forall st : sketch gps,
  buffer_ok st ->
  0 <= counter st ->
  counter st + Z.of_nat (length deliveries) <= INT_MAX ->
  exists st', loops deliveries st = Some (tt, st') /\ buffer_ok st' /\
    counter st <= counter st' <= counter st + Z.of_nat (length deliveries).
Proof.
  induction deliveries as [|chars deliveries IH]; intros st Hok Hc0 Hmax.
  - exists st. split; [reflexivity|]. split; [exact Hok | cbn; lia].
  - cbn [length] in Hmax.
    destruct (loop_ok chars st Hok) as (st1 & Hrun1 & Hok1 & Hc1).
    assert (Hc1' : counter st <= counter st1 <= counter st + 1).
    { destruct Hc1 as [->| ->]; [lia|]. unfold to_int32, INT_MAX in *.
      rewrite Z.mod_small by lia. lia. }
    destruct (IH st1 Hok1) as (st' & Hrun & Hok' & Hc'); [lia | lia |].
    exists st'. cbn [loops]. rewrite (bind_runs _ _ _ _ _ Hrun1).
    split; [exact Hrun|]. split; [exact Hok'|]. cbn [length]. lia.
Qed.

(** Until a line feed is read, the antenna status stays as it was: neither
    the other characters nor the UI update touch it. *)
Lemma ingest_keeps_antenna chars : forall st : sketch gps,
  buffer_ok st ->
  Forall (fun c => c <> newline) chars ->
  exists st', ingest chars st = Some (tt, st') /\ buffer_ok st' /\
    antennaOpen st' = antennaOpen st /\
    lastAntennaMsg st' = lastAntennaMsg st.
Proof.
  induction chars as [|c chars IH]; intros st Hok Hchars.
  - exists st. split; [reflexivity|]. split; [exact Hok | auto].
  - inversion Hchars as [|? ? Hc Hchars']; subst.
    destruct (ingest_char_keeps_antenna c st Hok Hc) as (st1 & Hrun1 & Ho & Hl & _).
    destruct (ingest_char_ok c st Hok) as (st1' & Hrun1' & Hok1).
    rewrite Hrun1 in Hrun1'. injection Hrun1' as <-.
    destruct (IH st1 Hok1 Hchars') as (st' & Hrun & Hok' & Ho' & Hl').
    exists st'. cbn [ingest]. rewrite (bind_runs _ _ _ _ _ Hrun1).
    split; [exact Hrun|]. split; [exact Hok'|]. split; congruence.
Qed.

Lemma ui_update_keeps_antenna (st : sketch gps) :
  exists st', ui_update st = Some (tt, st') /\
    txtBuf st' = txtBuf st /\ idx st' = idx st /\
    antennaOpen st' = antennaOpen st /\
    lastAntennaMsg st' = lastAntennaMsg st.
Proof.
  rewrite ui_update_runs.
  destruct (location_isUpdated (GPS st) || time_isUpdated (GPS st)).
  - destruct (render_runs st)
      as (body & st' & Hrun & _ & _ & _ & _ & Ho & Hl & Hb & Hi & _).
    exists st'. auto.
  - destruct (1000 <=? _).
    + destruct (render_runs (with_millis_calls (S (millis_calls st)) st))
        as (body & st' & Hrun & _ & _ & _ & _ & Ho & Hl & Hb & Hi & _).
      exists st'. auto.
    + eexists. split; [reflexivity|]. auto.
Qed.

Lemma loops_keep_antenna deliveries : forall st : sketch gps,
  buffer_ok st ->
  Forall (Forall (fun c => c <> newline)) deliveries ->
  exists st', loops deliveries st = Some (tt, st') /\ buffer_ok st' /\
    antennaOpen st' = antennaOpen st /\
    lastAntennaMsg st' = lastAntennaMsg st.
Proof.
  induction deliveries as [|chars deliveries IH]; intros st Hok Hall.
  - exists st. split; [reflexivity|]. split; [exact Hok | auto].
  - inversion Hall as [|? ? Hchars Hall']; subst.
    destruct (ingest_keeps_antenna chars st Hok Hchars)
      as (st1 & Hrun1 & Hok1 & Ho1 & Hl1).
    destruct (ui_update_keeps_antenna st1) as (st2 & Hrun2 & Hb & Hi & Ho2 & Hl2).
    assert (Hok2 : buffer_ok st2) by (unfold buffer_ok; rewrite Hb, Hi; exact Hok1).
    destruct (IH st2 Hok2 Hall') as (st' & Hrun & Hok' & Ho' & Hl').
    assert (Hloop : loop chars st = Some (tt, st2))
      by (unfold loop; rewrite (bind_runs _ _ _ _ _ Hrun1); exact Hrun2).
    exists st'. cbn [loops]. rewrite (bind_runs _ _ _ _ _ Hloop).
    split; [exact Hrun|]. split; [exact Hok'|]. split; congruence.
Qed.

(** ** The claims *)

(** C2.  When a line feed is read, the line in the buffer decides the antenna
    status.  If it contains ANTENNA, the flag becomes true exactly when it
    also contains OPEN, and the time stamp becomes what [millis()] returns.
    If it does not, flag and time stamp stay as they were. *)
Theorem antenna_status_on_line (st : sketch gps) :
  buffer_ok st ->
  exists line st',
    ingest_char newline st = Some (tt, st') /\
    c_str (txtBuf st') = Some line /\
    (contains "ANTENNA" line ->
       (antennaOpen st' = true <-> contains "OPEN" line) /\
       lastAntennaMsg st' = to_uint32 (millis_at st (millis_calls st))) /\
    (~ contains "ANTENNA" line ->
       antennaOpen st' = antennaOpen st /\
       lastAntennaMsg st' = lastAntennaMsg st).
Proof.
  intros Hok. rewrite ingest_char_sniff.
  apply (with_GPS_buffer_ok (gps_encode newline (GPS st))) in Hok.
  destruct (sniff_runs newline _ Hok) as (line & Hline & _ & ->).
  cbn [Ascii.eqb newline Bool.eqb].
  exists line. eexists. split; [reflexivity|].
  match goal with |- context [line_seen ?l ?b] =>
    destruct (line_seen_buffer l b) as [Hb _] end.
  rewrite Hb. split; [exact Hline|]. unfold line_seen.
  destruct (to_bool (strstr line (list_ascii_of_string "ANTENNA"))) eqn:Hfound.
  - split; [|intros Hno; apply strstr_contains in Hfound; contradiction].
    intros _. fields. split; [apply strstr_contains | reflexivity].
  - split; [|intros _; split; reflexivity].
    intros Hyes. apply strstr_contains in Hyes. congruence.
Qed.

(** C3.  Whatever Serial1 delivers, call after call of [loop]: no access
    to [txtBuf] falls outside its 80 places (the run does not fail), the
    buffer holds a string of at most 79 characters (a NUL is there), and once
    the index stands at 79 a character is dropped: the buffer stays as it is,
    the index too unless the character is a line feed, which resets it to 0;
    a [$] resets it and is stored in the first place. *)
Theorem line_buffer_bounded (g : gps) shown printed clk n
    (deliveries : list (list ascii)) (chars : list ascii) :
  exists st1 st',
    loops deliveries (boot g shown printed clk n) = Some (tt, st1) /\
    ingest chars st1 = Some (tt, st') /\
    length (txtBuf st') = 80%nat /\
    (exists line, c_str (txtBuf st') = Some line /\ (length line <= 79)%nat) /\
    0 <= idx st' <= 79 /\
    (idx st' = 79 ->
       (forall c, c <> dollar ->
          exists st'', ingest_char c st' = Some (tt, st'') /\
            txtBuf st'' = txtBuf st' /\
            idx st'' = if Ascii.eqb c newline then 0 else 79) /\
       (exists st'', ingest_char dollar st' = Some (tt, st'') /\
          idx st'' = 1 /\ txtBuf st'' !! 0%nat = Some dollar)).
Proof.
  assert (Hruns : forall l (st : sketch gps), buffer_ok st ->
            exists st', loops l st = Some (tt, st') /\ buffer_ok st').
  { induction l as [|cs l IH]; intros st Hok.
    - exists st. split; [reflexivity | exact Hok].
    - destruct (loop_ok cs st Hok) as (st1 & Hrun1 & Hok1 & _).
      destruct (IH st1 Hok1) as (st' & Hrun & Hok').
      exists st'. cbn [loops]. now rewrite (bind_runs _ _ _ _ _ Hrun1). }
  destruct (Hruns deliveries _ (boot_buffer_ok g shown printed clk n))
    as (st1 & Hrun1 & Hok1).
  destruct (ingest_ok chars st1 Hok1) as (st' & Hrun & Hok').
  exists st1, st'. split; [exact Hrun1|]. split; [exact Hrun|].
  pose proof Hok' as (Hlen & Hidx & Hnul).
  split; [exact Hlen|]. split; [exact (c_str_before_NUL _ _ Hnul)|].
  split; [exact Hidx|]. intros Hfull. split.
  - intros c Hc. rewrite ingest_char_sniff.
    set (st0 := with_GPS (gps_encode c (GPS st')) st').
    assert (Hok0 : buffer_ok st0) by exact Hok'.
    destruct (sniff_runs c st0 Hok0) as (line & _ & _ & ->).
    assert (Hb : txtBuf (buffered c st0) = txtBuf st' /\
                 idx (buffered c st0) = 79).
    { unfold buffered, appended. apply Ascii.eqb_neq in Hc. rewrite Hc.
      change (idx st0) with (idx st'). rewrite Hfull. split; reflexivity. }
    destruct Hb as [Hb Hi]. eexists. split; [reflexivity|].
    destruct (Ascii.eqb c newline).
    + destruct (line_seen_buffer line (buffered c st0)) as [Hb' Hi'].
      rewrite Hb', Hi'. auto.
    + auto.
  - destruct (line_so_far_dollar st' Hok') as (st'' & Hrun' & _ & Hi & Ht & _).
    exists st''. split; [exact Hrun'|]. split; [exact Hi|].
    cbn [length] in Ht. destruct (txtBuf st'') as [|b buf]; [discriminate|].
    cbn in Ht. injection Ht as ->. reflexivity.
Qed.

(** C6.  A render pass draws the antenna badge exactly when the clock, read
    for it, is less than 5000ms past the last antenna status (in unsigned
    32-bit arithmetic); the text is ANT OPEN when the flag is set and ANT OK
    when it is not.  Nothing else is drawn in its place. *)
Theorem antenna_badge_when_recent (st : sketch gps) :
  let now := to_uint32 (millis_at st (S (millis_calls st))) in
  exists frame st',
    render st = Some (tt, st') /\
    oled st' = oled st ++ frame /\
    badge_texts frame =
      (if sub32 now (lastAntennaMsg st) <? 5000
       then [if antennaOpen st then "ANT OPEN"%string else "ANT OK"%string]
       else []) /\
    (0 <= lastAntennaMsg st <= now ->
     sub32 now (lastAntennaMsg st) = now - lastAntennaMsg st).
Proof.
  intros now.
  destruct (render_runs st) as (body & st' & Hrun & Holed & Hbody & _).
  eexists. exists st'. split; [exact Hrun|]. split; [exact Holed|]. split.
  - change (oled_clear :: ?l) with ([oled_clear] ++ l).
    rewrite !badge_texts_app, Hbody. fold now. unfold antenna_calls.
    destruct (sub32 now (lastAntennaMsg st) <? 5000); reflexivity.
  - intros Hle. unfold sub32, to_uint32. apply Z.mod_small.
    assert (now < 2 ^ 32)
      by (apply (Z.mod_pos_bound (millis_at st (S (millis_calls st)))); reflexivity).
    lia.
Qed.

(** C7.  A call of [loop] redraws exactly when the parser, fed with what the
    call has read, reports a new location or time, or the clock is 1000ms or
    more past the last redraw (in unsigned 32-bit arithmetic).  The time of
    the last redraw is [lastUi]: a redraw stores in it the clock it reads
    when it starts (line 140: the reading after the one of the test, or the
    first reading of the call when the parser has reported and the test reads
    none), and a call that does not redraw leaves it alone.  A redraw sends a
    frame from [clear] to [display]; without one the display, the time of the
    last redraw, the tick counter and Serial stay as they were. *)
Theorem redraw_iff_reported_or_due chars (st : sketch gps) :
  buffer_ok st ->
  exists st1 st',
    ingest chars st = Some (tt, st1) /\
    loop chars st = Some (tt, st') /\
    let reported := location_isUpdated (GPS st1) || time_isUpdated (GPS st1) in
    let elapsed :=
      sub32 (to_uint32 (millis_at st1 (millis_calls st1))) (lastUi st) in
    let redraw := reported || (1000 <=? elapsed) in
    let at_redraw :=
      if reported then millis_calls st1 else S (millis_calls st1) in
    ((length (oled st) < length (oled st'))%nat <-> redraw = true) /\
    (redraw = true ->
       (exists frame,
          oled st' = oled st ++ oled_clear :: frame ++ [oled_display]) /\
       lastUi st' = to_uint32 (millis_at st1 at_redraw) /\
       millis_at st' = millis_at st1 /\
       millis_calls st' = (3 + at_redraw)%nat) /\
    (redraw = false ->
       oled st' = oled st /\ lastUi st' = lastUi st /\
       counter st' = counter st /\ serial st' = serial st /\
       millis_at st' = millis_at st1 /\
       millis_calls st' = S (millis_calls st1)).
Proof.
  intros Hok.
  destruct (ingest_keeps_ui chars st Hok)
    as (st1 & Hrun1 & Hok1 & Ho & Hl & Hc & Hs & _).
  exists st1. unfold loop. rewrite (bind_runs _ _ _ _ _ Hrun1), ui_update_runs.
  rewrite Hl.
  set (reported := location_isUpdated (GPS st1) || time_isUpdated (GPS st1)).
  set (elapsed := sub32 _ (lastUi st)).
  assert (Hpass : forall s : sketch gps, oled s = oled st ->
            exists st', render s = Some (tt, st') /\
              (length (oled st) < length (oled st'))%nat /\
              (exists frame,
                 oled st' = oled st ++ oled_clear :: frame ++ [oled_display]) /\
              lastUi st' = to_uint32 (millis_at s (millis_calls s)) /\
              millis_at st' = millis_at s /\
              millis_calls st' = (3 + millis_calls s)%nat).
  { intros s Hs0.
    destruct (render_runs s)
      as (body & st' & Hrun & Holed & _ & _ & Hui & _ & _ & _ & _ & Hat & Hn).
    exists st'. split; [exact Hrun|]. rewrite Holed, Hs0. split; [|split].
    - rewrite length_app. cbn [length]. lia.
    - eexists (body ++ antenna_calls _ _ _ ++ [oled_drawString 127 54 _]).
      rewrite <- !app_assoc. reflexivity.
    - auto. }
  destruct reported; cbn [orb].
  - destruct (Hpass st1 Ho) as (st' & Hrun & Hlen & Hframe).
    exists st'. split; [exact Hrun1|]. split; [exact Hrun|].
    split; [tauto|]. split; [intros _; exact Hframe | discriminate].
  - destruct (1000 <=? elapsed).
    + destruct (Hpass (with_millis_calls (S (millis_calls st1)) st1) Ho)
        as (st' & Hrun & Hlen & Hframe).
      exists st'. split; [exact Hrun1|]. split; [exact Hrun|].
      split; [tauto|]. split; [intros _; exact Hframe | discriminate].
    + eexists. split; [exact Hrun1|]. split; [reflexivity|]. fields.
      rewrite Ho. split; [split; [lia | discriminate]|].
      split; [discriminate | auto 10].
Qed.

(** C8.  After the sentence $GPRMC and its line feed, the [$] of the next
    sentence puts the index back to the start, and at the line feed of $GPGGA
    the buffer holds that sentence and nothing of the first. *)
Theorem second_sentence_without_residue (st : sketch gps) :
  buffer_ok st ->
  let rmc := list_ascii_of_string "$GPRMC" ++ [newline] in
  let gga := list_ascii_of_string "$GPGGA" ++ [newline] in
  exists st1 st2 st3,
    ingest rmc st = Some (tt, st1) /\
    c_str (txtBuf st1) = Some rmc /\
    ingest_char dollar st1 = Some (tt, st2) /\
    idx st2 = 1 /\ c_str (txtBuf st2) = Some [dollar] /\
    ingest (rmc ++ gga) st = Some (tt, st3) /\
    c_str (txtBuf st3) = Some gga /\ idx st3 = 0.
Proof.
  intros Hok rmc gga.
  assert (Hsent : forall word (s : sketch gps), buffer_ok s ->
            (word = "GPRMC"%string \/ word = "GPGGA"%string) ->
            exists s', ingest (dollar :: list_ascii_of_string word ++ [newline]) s
                       = Some (tt, s') /\ buffer_ok s' /\ idx s' = 0 /\
              c_str (txtBuf s') =
                Some (dollar :: list_ascii_of_string word ++ [newline])).
  { intros word s Hs Hword. apply sentence_buffered; [exact Hs|..];
      destruct Hword as [-> | ->]; cbn; try lia;
      repeat constructor; discriminate. }
  destruct (Hsent "GPRMC"%string st Hok) as (st1 & Hrun1 & Hok1 & _ & Hc1); [auto|].
  destruct (line_so_far_dollar st1 Hok1) as (st2 & Hrun2 & _ & Hi2 & Ht2 & Hn2).
  destruct (Hsent "GPGGA"%string st1 Hok1) as (st3 & Hrun3 & _ & Hi3 & Hc3); [auto|].
  exists st1, st2, st3. split; [exact Hrun1|]. split; [exact Hc1|].
  split; [exact Hrun2|]. split; [exact Hi2|].
  split; [apply c_str_take; [exact Ht2 | exact Hn2 | repeat constructor; discriminate]|].
  split; [|split; [exact Hc3 | exact Hi3]].
  rewrite ingest_app. change rmc with (dollar :: list_ascii_of_string "GPRMC" ++ [newline]).
  rewrite Hrun1. exact Hrun3.
Qed.



(** C10.  With the antenna status as the initialisers leave it (flag false,
    time stamp 0), a render pass that reads the clock below 5000ms for the
    badge draws it, with the text ANT OK, although no antenna line has been
    read. *)
Theorem boot_badge_ant_ok (st : sketch gps) :
  antennaOpen st = false ->
  lastAntennaMsg st = 0 ->
  to_uint32 (millis_at st (S (millis_calls st))) < 5000 ->
  exists frame st',
    render st = Some (tt, st') /\
    oled st' = oled st ++ frame /\
    badge_texts frame = ["ANT OK"%string].
Proof.
  intros Hopen Hlast Hnow.
  destruct (render_runs st) as (body & st' & Hrun & Holed & Hbody & _).
  eexists. exists st'. split; [exact Hrun|]. split; [exact Holed|].
  change (oled_clear :: ?l) with ([oled_clear] ++ l).
  rewrite !badge_texts_app, Hbody, Hopen, Hlast. unfold antenna_calls.
  assert (Hsub : sub32 (to_uint32 (millis_at st (S (millis_calls st)))) 0 =
                 to_uint32 (millis_at st (S (millis_calls st)))).
  { unfold sub32. rewrite Z.sub_0_r. unfold to_uint32. apply Zmod_mod. }
  rewrite Hsub. apply Z.ltb_lt in Hnow. rewrite Hnow. reflexivity.
Qed.

End Sketch.

(** ** The claims at work, on a receiver that never reports anything *)

#[local] Existing Instance no_fix.

Lemma antenna_status_on_line_witness :
  exists line st',
    ingest_char newline antenna_pending = Some (tt, st') /\
    c_str (txtBuf st') = Some line /\
    (contains "ANTENNA" line ->
       (antennaOpen st' = true <-> contains "OPEN" line) /\
       lastAntennaMsg st' =
         to_uint32 (millis_at antenna_pending (millis_calls antenna_pending))) /\
    (~ contains "ANTENNA" line ->
       antennaOpen st' = antennaOpen antenna_pending /\
       lastAntennaMsg st' = lastAntennaMsg antenna_pending).
Proof.
  apply (antenna_status_on_line (H := no_fix) antenna_pending).
  repeat split; vm_compute; congruence.
Defined.

Lemma redraw_iff_reported_or_due_witness :
  exists st1 st',
    ingest (list_ascii_of_string "$GP") fresh = Some (tt, st1) /\
    loop (list_ascii_of_string "$GP") fresh = Some (tt, st') /\
    let reported := location_isUpdated (GPS st1) || time_isUpdated (GPS st1) in
    let elapsed :=
      sub32 (to_uint32 (millis_at st1 (millis_calls st1))) (lastUi fresh) in
    let redraw := reported || (1000 <=? elapsed) in
    let at_redraw :=
      if reported then millis_calls st1 else S (millis_calls st1) in
    ((length (oled fresh) < length (oled st'))%nat <-> redraw = true) /\
    (redraw = true ->
       (exists frame,
          oled st' = oled fresh ++ oled_clear :: frame ++ [oled_display]) /\
       lastUi st' = to_uint32 (millis_at st1 at_redraw) /\
       millis_at st' = millis_at st1 /\
       millis_calls st' = (3 + at_redraw)%nat) /\
    (redraw = false ->
       oled st' = oled fresh /\ lastUi st' = lastUi fresh /\
       counter st' = counter fresh /\ serial st' = serial fresh /\
       millis_at st' = millis_at st1 /\
       millis_calls st' = S (millis_calls st1)).
Proof.
  apply (redraw_iff_reported_or_due (list_ascii_of_string "$GP") fresh).
  repeat split; vm_compute; congruence.
Defined.

Lemma second_sentence_without_residue_witness :
  let rmc := list_ascii_of_string "$GPRMC" ++ [newline] in
  let gga := list_ascii_of_string "$GPGGA" ++ [newline] in
  exists st1 st2 st3,
    ingest rmc fresh = Some (tt, st1) /\
    c_str (txtBuf st1) = Some rmc /\
    ingest_char dollar st1 = Some (tt, st2) /\
    idx st2 = 1 /\ c_str (txtBuf st2) = Some [dollar] /\
    ingest (rmc ++ gga) fresh = Some (tt, st3) /\
    c_str (txtBuf st3) = Some gga /\ idx st3 = 0.
Proof.
  apply (second_sentence_without_residue fresh).
  repeat split; vm_compute; congruence.
Defined.


Lemma boot_badge_ant_ok_witness :
  exists frame st',
    render fresh = Some (tt, st') /\
    oled st' = oled fresh ++ frame /\
    badge_texts frame = ["ANT OK"%string].
Proof.
  apply (boot_badge_ant_ok fresh).
  - reflexivity.
  - reflexivity.
  - vm_compute. reflexivity.
Defined.

End DisplayFacts.

(** * More facts about number printing *)

Lemma digit_char_value c :
  0 <= c < 10 -> Z.of_N (N_of_ascii (digit_char c)) - 48 = c.
Proof.
  intros Hc. unfold digit_char. destruct (Z.ltb_spec c 10); [|lia].
  rewrite N_ascii_embedding by lia. lia.
Qed.

(** The digits [printNumber_loop] puts before [str] read as [n]. *)
Lemma printNumber_loop_value room : forall n str,
  (1 <= room)%nat -> 0 <= n < 10 ^ Z.of_nat room ->
  dec_value (printNumber_loop room n 10 str) =
  n * 10 ^ Z.of_nat (String.length str) + dec_value str.
Proof.
  induction room as [|room IH]; intros n str Hroom Hn; [lia|].
  cbn [printNumber_loop].
  assert (Hc : 0 <= n mod 10 < 10) by (apply Z.mod_pos_bound; lia).
  assert (Hdm : n = 10 * (n / 10) + n mod 10) by (apply Z.div_mod; lia).
  destruct (Z.eqb_spec (n / 10) 0) as [Hq|Hq].
  - cbn [dec_value]. rewrite digit_char_value by exact Hc. f_equal.
    f_equal. lia.
  - assert (Hq' : 0 < n / 10) by (pose proof (Z.div_pos n 10); lia).
    assert (Hroom' : (1 <= room)%nat).
    { destruct room; [|lia]. cbn in Hn. lia. }
    rewrite IH; [|exact Hroom'|].
    + cbn [dec_value String.length]. rewrite digit_char_value by exact Hc.
      rewrite Nat2Z.inj_succ, Z.pow_succ_r by lia. lia.
    + split; [lia|]. apply Z.div_lt_upper_bound; [lia|].
      rewrite Nat2Z.inj_succ, Z.pow_succ_r in Hn by lia. lia.
Qed.

(** A number below [10 ^ k] takes at most [k] digits. *)
Lemma printNumber_loop_length room : forall k n str,
  (1 <= k)%nat -> 0 <= n < 10 ^ Z.of_nat k ->
  (String.length (printNumber_loop room n 10 str) <= k + String.length str)%nat.
Proof.
  induction room as [|room IH]; intros k n str Hk Hn; [cbn; lia|].
  cbn [printNumber_loop].
  destruct (Z.eqb_spec (n / 10) 0) as [Hq|Hq]; [cbn [String.length]; lia|].
  assert (Hq' : 0 < n / 10) by (pose proof (Z.div_pos n 10); lia).
  destruct k as [|k]; [lia|].
  assert (Hk' : (1 <= k)%nat).
  { destruct k; [|lia]. cbn in Hn.
    assert (n / 10 = 0) by (apply Z.div_small; lia). lia. }
  specialize (IH k (n / 10) (String (digit_char (n mod 10)) str) Hk').
  cbn [String.length] in IH. etransitivity; [apply IH | lia].
  split; [lia|]. apply Z.div_lt_upper_bound; [lia|].
  rewrite Nat2Z.inj_succ, Z.pow_succ_r in Hn by lia. lia.
Qed.

(** What [Serial.print] writes for an unsigned 32-bit number reads back as
    that number, in at most 10 digits. *)
Lemma printNumber_dec_value n :
  0 <= n < 2 ^ 32 ->
  dec_value (printNumber n DEC) = n /\
  (String.length (printNumber n DEC) <= 10)%nat.
Proof.
  intros Hn. unfold printNumber, DEC. change (10 <? 2) with false. cbv iota.
  split.
  - rewrite printNumber_loop_value; [cbn; lia | lia |].
    change (10 ^ Z.of_nat 32) with 100000000000000000000000000000000. lia.
  - etransitivity; [apply (printNumber_loop_length 32 10) |]; cbn; lia.
Qed.

(** * More facts about the GNSS bring-up debugger *)

Module DebugExtras.
Import Debug_GNSS DebugFacts.
Local Open Scope sketch_scope.

(** ** Reading the console back *)

Lemma hex_value_digit d : 0 <= d < 16 -> hex_value (hex_digit d) = Some d.
Proof.
  intros Hd.
  assert (Hcases : d = 0 \/ d = 1 \/ d = 2 \/ d = 3 \/ d = 4 \/ d = 5 \/
                   d = 6 \/ d = 7 \/ d = 8 \/ d = 9 \/ d = 10 \/ d = 11 \/
                   d = 12 \/ d = 13 \/ d = 14 \/ d = 15) by lia.
  repeat (destruct Hcases as [-> | Hcases]; [reflexivity|]).
  subst d. reflexivity.
Qed.

Lemma undump_group b s :
  0 <= b < 256 ->
  undump (hex_ascii_format b ++ s) = option_map (cons b) (undump s).
Proof.
  intros Hb. unfold hex_ascii_format. cbn [append undump].
  rewrite !hex_value_digit.
  - destruct (undump s) as [bytes|]; [|reflexivity]. cbn.
    do 3 f_equal. pose proof (Z.div_mod b 16). lia.
  - apply Z.mod_pos_bound. lia.
  - split; [apply Z.div_pos; lia | apply Z.div_lt_upper_bound; lia].
Qed.

Lemma undump_dump_format bytes :
  undump (dump_format bytes) = Some (map to_uint8 bytes).
Proof.
  induction bytes as [|r bytes IH]; [reflexivity|].
  cbn [dump_format map]. rewrite undump_group by apply to_uint8_range.
  now rewrite IH.
Qed.

(** ** The hardware side *)

Lemma hardware_view_app tr1 tr2 :
  hardware_view (tr1 ++ tr2) = hardware_view tr1 ++ hardware_view tr2.
Proof. apply List.filter_app. Qed.

Lemma byte_prints_hardware b :
  0 <= b < 256 -> hardware_view (byte_prints b) = [].
Proof.
  intros Hb.
  pose (chk := fun b : Z =>
    match hardware_view (byte_prints b) with [] => true | _ => false end).
  assert (H : chk b = true).
  { revert b Hb. apply byte_cases. vm_compute. reflexivity. }
  unfold chk in H. destruct (hardware_view (byte_prints b)); [reflexivity|discriminate].
Qed.

Lemma burst_hardware burst :
  hardware_view (List.flat_map byte_events burst) = [].
Proof.
  induction burst as [|r burst IH]; [reflexivity|].
  cbn [List.flat_map]. rewrite hardware_view_app, IH. unfold byte_events.
  unfold hardware_view at 1. cbn [List.filter is_hardware].
  fold (hardware_view (byte_prints (to_uint8 r))).
  now rewrite byte_prints_hardware by apply to_uint8_range.
Qed.

Lemma window_events_hardware busy : forall bursts,
  hardware_view (window_events busy bursts) = [].
Proof.
  induction busy as [|t busy IH]; intros bursts; [reflexivity|].
  cbn [window_events].
  change (millis_is t :: ?l) with ([millis_is t] ++ l).
  now rewrite !hardware_view_app, burst_hardware, IH.
Qed.

Lemma window_trace_hardware start busy fin bursts :
  hardware_view (window_trace start busy fin bursts) = [].
Proof.
  unfold window_trace, window_footer.
  change (millis_is start :: ?l) with ([millis_is start] ++ l).
  now rewrite !hardware_view_app, window_events_hardware.
Qed.

Lemma acts_emits m evs : emits m tt evs -> acts m 0 (hardware_view evs).
Proof.
  intros Hm k w Hk. eexists. exists evs. split; [apply Hm|]. cbn [clock trace].
  auto.
Qed.

Lemma acts_bind m1 m2 n1 n2 p1 p2 :
  acts m1 n1 p1 -> acts m2 n2 p2 -> acts (m1 ;; m2) (n1 + n2) (p1 ++ p2).
Proof.
  intros H1 H2 k w Hk. rewrite <- Nat.add_assoc in Hk.
  destruct (H1 _ _ Hk) as (w1 & evs1 & Hr1 & Hf1 & Ht1 & Hv1).
  destruct (H2 _ _ Hf1) as (w2 & evs2 & Hr2 & Hf2 & Ht2 & Hv2).
  exists w2, (evs1 ++ evs2). rewrite (bind_runs _ _ _ _ _ Hr1).
  split; [exact Hr2|]. split; [exact Hf2|].
  rewrite Ht2, Ht1, <- app_assoc, hardware_view_app, Hv1, Hv2. auto.
Qed.

Lemma acts_as m n n' p p' : acts m n p -> n = n' -> p = p' -> acts m n' p'.
Proof. now intros H <- <-. Qed.

Lemma acts_tryCombo name rxp txp baud :
  acts (tryCombo name rxp txp baud) 1
    [Serial1_end; delay 50; Serial1_begin baud rxp txp; delay 200].
Proof.
  intros k [clk bursts tr] Hk. cbn [clock trace Nat.add] in *.
  inversion Hk as [|? start busy fin rest Hbusy Hfin Hrest]; subst.
  eexists. eexists. split; [apply tryCombo_runs; assumption|].
  cbn [clock trace]. split; [assumption|]. split; [reflexivity|].
  now rewrite hardware_view_app, window_trace_hardware.
Qed.

Ltac act_step :=
  lazymatch goal with
  | |- acts (bind _ _) _ _ => eapply acts_bind
  | |- acts (tryCombo _ _ _ _) _ _ => apply acts_tryCombo
  | |- acts (emit _) _ _ => apply acts_emits, emits_emit
  | |- acts (setGnssPower _) _ _ => apply acts_emits, setGnssPower_emits
  | |- acts (setWake _) _ _ => apply acts_emits, setWake_emits
  | |- acts pulseReset _ _ => apply acts_emits, pulseReset_emits
  end.

Lemma sweep_body_acts p w :
  acts (sweep_body p w) 6
    ([pinMode_OUTPUT VGNSS_CTRL; digitalWrite VGNSS_CTRL p; delay 300;
      pinMode_OUTPUT GNSS_WAKE; digitalWrite GNSS_WAKE w; delay 200;
      pinMode_OUTPUT GNSS_RST; digitalWrite GNSS_RST LOW; delay 80;
      digitalWrite GNSS_RST HIGH; delay 500] ++
     List.flat_map (fun pins =>
       List.flat_map (fun baud =>
         [Serial1_end; delay 50;
          Serial1_begin baud (fst pins) (snd pins); delay 200])
         baud_rates) pin_variants).
Proof.
  unfold sweep_body. eapply acts_as.
  - repeat act_step.
  - reflexivity.
  - reflexivity.
Qed.

Lemma setup_acts : acts setup 24 hardware_plan.
Proof.
  unfold setup, for2. eapply acts_as.
  - repeat lazymatch goal with
           | |- acts (sweep_body _ _) _ _ => apply sweep_body_acts
           | |- _ => act_step
           end.
  - reflexivity.
  - reflexivity.
Qed.

Lemma total_delay_hardware tr : total_delay (hardware_view tr) = total_delay tr.
Proof.
  induction tr as [|e tr IH]; [reflexivity|].
  destruct e; cbn [hardware_view List.filter is_hardware total_delay];
    fold (hardware_view tr); rewrite ?IH; reflexivity.
Qed.

Lemma outputs_first_hardware tr : forall outputs,
  outputs_first outputs (hardware_view tr) = outputs_first outputs tr.
Proof.
  induction tr as [|e tr IH]; intros outputs; [reflexivity|].
  destruct e; cbn [hardware_view List.filter is_hardware outputs_first];
    fold (hardware_view tr); rewrite ?IH; reflexivity.
Qed.

Lemma levels_at_begin_hardware tr : forall pins,
  levels_at_begin pins (hardware_view tr) = levels_at_begin pins tr.
Proof.
  induction tr as [|e tr IH]; intros pins; [reflexivity|].
  destruct e; cbn [hardware_view List.filter is_hardware levels_at_begin];
    fold (hardware_view tr); rewrite ?IH; reflexivity.
Qed.

(** ** The properties *)

(** X1.  [endAt] is [millis() + ms] in 32 bits.  When that sum passes 2^32
    the deadline lies before the start, and with a clock that has not
    wrapped yet the window ends at its first test: nothing is read, even
    with bytes pending, and the count printed is 0. *)
Theorem dumpForMs_deadline_wraps ms start fin rest bursts tr :
  0 <= start < 2 ^ 32 -> 0 <= ms < 2 ^ 32 ->
  2 ^ 32 <= start + ms ->
  start <= fin ->
  dumpForMs ms (World (start :: fin :: rest) bursts tr) =
  Some (tt, World rest bursts
              (tr ++ [millis_is start; millis_is fin; Serial_println "";
                      Serial_print "bytes read: "; Serial_println "0"])).
Proof.
  intros Hstart Hms Hwrap Hfin.
  assert (Hd : deadline start ms = start + ms - 2 ^ 32).
  { unfold deadline, to_uint32. symmetry.
    apply (Z.mod_unique _ _ 1); lia. }
  change (start :: fin :: rest) with (start :: [] ++ fin :: rest).
  rewrite (dumpForMs_runs ms start [] fin rest bursts tr);
    [reflexivity | constructor | lia].
Qed.

Lemma dumpForMs_deadline_wraps_witness :
  dumpForMs 3000 near_wrap =
  Some (tt, World [] [[36; 71; 80]]
              ([] ++ [millis_is (2 ^ 32 - 1000); millis_is (2 ^ 32 - 1000);
                      Serial_println ""; Serial_print "bytes read: ";
                      Serial_println "0"])).
Proof.
  apply (dumpForMs_deadline_wraps 3000 (2 ^ 32 - 1000) (2 ^ 32 - 1000) []
           [[36; 71; 80]] []); lia.
Defined.

(** X2.  What a window puts on the console reads back, for every length
    [ms]: the dump gives the bytes read, in the order read (each as
    [uint8_t]); the footer gives their number in decimal (as [uint32_t]).
    The window reads the bursts offered at the tests before the deadline and
    leaves the later ones. *)
Theorem dumpForMs_console_reads_back ms start busy fin rest bursts tr :
  Forall (fun t => t < deadline start ms) busy ->
  deadline start ms <= fin ->
  exists body digits,
    dumpForMs ms (World (start :: busy ++ fin :: rest) bursts tr) =
      Some (tt, World rest (drop (length busy) bursts)
                  (tr ++ body ++
                   [Serial_println ""; Serial_print "bytes read: ";
                    Serial_println digits])) /\
    bytes_read body = concat (take (length busy) bursts) /\
    undump (serial_text body) = Some (map to_uint8 (bytes_read body)) /\
    dec_value digits = to_uint32 (Z.of_nat (length (bytes_read body))).
Proof.
  intros Hbusy Hfin.
  destruct (window_events_view busy bursts) as (_ & _ & Hbytes).
  exists (millis_is start :: window_events busy bursts ++ [millis_is fin]).
  eexists. split; [|split; [|split]].
  - rewrite (dumpForMs_runs ms start busy fin rest bursts tr Hbusy Hfin).
    unfold window_trace, window_footer. cbn [app]. rewrite <- !app_assoc.
    reflexivity.
  - cbn [bytes_read]. rewrite bytes_read_app, Hbytes. cbn [bytes_read].
    now rewrite app_nil_r.
  - cbn [bytes_read serial_text event_text append].
    rewrite bytes_read_app, serial_text_app, window_events_text, Hbytes.
    cbn [bytes_read serial_text event_text]. rewrite app_nil_r, !append_empty_r.
    apply undump_dump_format.
  - cbn [bytes_read]. rewrite bytes_read_app, Hbytes. cbn [bytes_read].
    rewrite app_nil_r, counted_uint32 by lia. cbn [Z.add].
    apply printNumber_dec_value. apply Z.mod_pos_bound. reflexivity.
Qed.

Lemma dumpForMs_console_reads_back_witness :
  exists body digits,
    dumpForMs 3000 late =
      Some (tt, World [] []
                  ([] ++ body ++
                   [Serial_println ""; Serial_print "bytes read: ";
                    Serial_println digits])) /\
    bytes_read body = [36; 71; 80; 71; 71; 65; 44; 49; 50; 51; 53; 49; 57] /\
    undump (serial_text body) = Some (map to_uint8 (bytes_read body)) /\
    dec_value digits = to_uint32 (Z.of_nat (length (bytes_read body))).
Proof.
  apply (dumpForMs_console_reads_back 3000 1000 [3999] 4005 []
           [[36; 71; 80; 71; 71; 65; 44; 49; 50; 51; 53; 49; 57]] []).
  - repeat constructor.
  - vm_compute. discriminate.
Defined.

(** X3.  Whatever the receiver sends, the hardware side of [setup] is the
    plan: console at 115200 baud, and per power and wake level the power
    pin, the wake pin, the reset pulse (low 80ms, high 500ms), then per pin
    variant and baud rate [Serial1.end], 50ms, [Serial1.begin], 200ms.  The
    delays add up to 10620ms; [loop] adds nothing. *)
Theorem setup_hardware_sequence w :
  feeds 24 (clock w) ->
  exists w' evs,
    (forall n, arduino_main n w = Some (tt, w')) /\
    trace w' = trace w ++ evs /\
    hardware_view evs = hardware_plan /\
    total_delay evs = 10620.
Proof.
  intros Hfeeds.
  destruct (setup_acts 0%nat w Hfeeds) as (w' & evs & Hrun & _ & Htr & Hhw).
  exists w', evs. split; [|split; [exact Htr|split; [exact Hhw|]]].
  - intros n. unfold arduino_main.
    rewrite (bind_runs _ _ _ _ _ Hrun). apply loops_ret.
  - rewrite <- total_delay_hardware, Hhw. reflexivity.
Qed.

Lemma setup_hardware_sequence_witness :
  exists w' evs,
    (forall n, arduino_main n silent = Some (tt, w')) /\
    trace w' = trace silent ++ evs /\
    hardware_view evs = hardware_plan /\
    total_delay evs = 10620.
Proof. exact (setup_hardware_sequence silent silent_feeds). Defined.

(** X4.  [setup] never drives a pin it has not made an output before. *)
Theorem setup_configures_before_driving w :
  feeds 24 (clock w) ->
  exists w' evs,
    setup w = Some (tt, w') /\
    trace w' = trace w ++ evs /\
    outputs_first [] evs = true.
Proof.
  intros Hfeeds.
  destruct (setup_acts 0%nat w Hfeeds) as (w' & evs & Hrun & _ & Htr & Hhw).
  exists w', evs. split; [exact Hrun|]. split; [exact Htr|].
  rewrite <- outputs_first_hardware, Hhw. reflexivity.
Qed.

Lemma setup_configures_before_driving_witness :
  exists w' evs,
    setup silent = Some (tt, w') /\
    trace w' = trace silent ++ evs /\
    outputs_first [] evs = true.
Proof. exact (setup_configures_before_driving silent silent_feeds). Defined.

(** X5.  Every window is captured with the lines as its pass set them: at
    each of the 24 calls of [Serial1.begin] the reset line is high, and the
    power and wake lines are low and low for the first six, low and high for
    the next six, then high and low, then high and high. *)
Theorem setup_levels_at_begin w :
  feeds 24 (clock w) ->
  exists w' evs,
    setup w = Some (tt, w') /\
    trace w' = trace w ++ evs /\
    levels_at_begin no_levels evs =
      List.flat_map (fun p =>
        List.flat_map (fun wk => repeat (Some p, Some wk, Some HIGH) 6) levels)
        levels.
Proof.
  intros Hfeeds.
  destruct (setup_acts 0%nat w Hfeeds) as (w' & evs & Hrun & _ & Htr & Hhw).
  exists w', evs. split; [exact Hrun|]. split; [exact Htr|].
  rewrite <- levels_at_begin_hardware, Hhw. reflexivity.
Qed.

Lemma setup_levels_at_begin_witness :
  exists w' evs,
    setup silent = Some (tt, w') /\
    trace w' = trace silent ++ evs /\
    levels_at_begin no_levels evs =
      List.flat_map (fun p =>
        List.flat_map (fun wk => repeat (Some p, Some wk, Some HIGH) 6) levels)
        levels.
Proof. exact (setup_levels_at_begin silent silent_feeds). Defined.

End DebugExtras.

(** * More facts about the GPS display demo *)

Module DisplayExtras.
Import GPSwithOLED DisplayFacts.
Local Open Scope sketch_scope.

Section Sketch.

Context {gps : Type} `{TinyGPSPlus gps}.

(** ** Characters and lines *)

(** What one character does besides the buffer: the parser gets it, and
    unless it is a line feed the antenna status and the clock stay. *)
Lemma ingest_char_parser c (st : sketch gps) :
  buffer_ok st ->
  exists st', ingest_char c st = Some (tt, st') /\ buffer_ok st' /\
    GPS st' = gps_encode c (GPS st) /\
    (c <> newline ->
       antennaOpen st' = antennaOpen st /\
       lastAntennaMsg st' = lastAntennaMsg st /\
       millis_calls st' = millis_calls st /\
       millis_at st' = millis_at st).
Proof.
  intros Hok. destruct (ingest_char_ok c st Hok) as (st' & Hrun & Hok').
  exists st'. split; [exact Hrun|]. split; [exact Hok'|].
  rewrite ingest_char_sniff in Hrun.
  apply (with_GPS_buffer_ok (gps_encode c (GPS st))) in Hok.
  destruct (sniff_runs c _ Hok) as (line & _ & _ & Hs). rewrite Hs in Hrun.
  injection Hrun as <-. destruct (Ascii.eqb_spec c newline) as [->|Hc].
  - split; [|intros Hn; contradiction]. unfold line_seen.
    destruct (to_bool _); reflexivity.
  - split; [reflexivity|]. intros _. repeat split.
Qed.

Lemma c_str_take_any : forall (s buf : list ascii),
  take (length s) buf = s ->
  buf !! length s = Some NUL ->
  c_str buf = Some (before_NUL s).
Proof.
  induction s as [|c s IH]; intros buf Htake Hnul.
  - destruct buf as [|b buf]; [discriminate|]. cbn in Hnul.
    injection Hnul as ->. reflexivity.
  - destruct buf as [|b buf]; [discriminate|]. cbn in Htake, Hnul.
    injection Htake as -> Htake. cbn [c_str before_NUL].
    destruct (Ascii.eqb c NUL); [reflexivity|].
    now rewrite (IH buf Htake Hnul).
Qed.

(** The buffer after one more character of a line, full or not. *)
Lemma buffered_line s c (st : sketch gps) :
  line_so_far s st -> (length s <= 79)%nat -> c <> dollar ->
  line_so_far (take 79 (s ++ [c])) (buffered c st).
Proof.
  intros (Hok & Hidx & Htake & Hnul) Hlen Hd.
  destruct (buffered_ok c st Hok) as (Hok' & _). split; [exact Hok'|].
  destruct Hok as (Hl & _ & _).
  unfold buffered, appended. apply Ascii.eqb_neq in Hd. rewrite Hd.
  change (sizeof_txtBuf - 1) with 79.
  destruct (Z.ltb_spec (idx st) 79) as [Hlt|Hge];
    cbn [idx txtBuf with_idx with_txtBuf fst snd].
  - rewrite take_ge by (rewrite length_app; cbn [length]; lia).
    rewrite Hidx, length_app. cbn [length].
    replace (Z.to_nat (Z.of_nat (length s) + 1)) with (S (length s)) by lia.
    rewrite Nat2Z.id, Nat.add_1_r.
    repeat split.
    + lia.
    + rewrite take_insert_ge by lia.
      rewrite (take_S_r _ _ c) by (apply list_lookup_insert_eq; lia).
      rewrite take_insert_ge by lia. now rewrite Htake.
    + apply list_lookup_insert_eq. rewrite length_insert. lia.
  - assert (Hs : length s = 79%nat) by lia.
    rewrite take_app_length' by (symmetry; exact Hs). auto.
Qed.

(** The characters of a line after its [$], as many as come. *)
Lemma line_so_far_any body : forall s (st : sketch gps),
  line_so_far s st -> (length s <= 79)%nat ->
  Forall (fun c => c <> dollar /\ c <> newline) body ->
  exists st', ingest body st = Some (tt, st') /\
    line_so_far (take 79 (s ++ body)) st' /\
    antennaOpen st' = antennaOpen st /\
    lastAntennaMsg st' = lastAntennaMsg st /\
    millis_calls st' = millis_calls st /\
    millis_at st' = millis_at st.
Proof.
  induction body as [|c body IH]; intros s st Hs Hlen Hbody.
  - exists st. rewrite app_nil_r, take_ge by lia.
    split; [reflexivity|]. split; [exact Hs|]. repeat split.
  - inversion Hbody as [|? ? [Hd Hn] Hbody']; subst.
    pose proof Hs as (Hok & _).
    destruct (ingest_char_parser c st Hok) as (st1 & Hrun1 & _ & _ & Hq).
    destruct (Hq Hn) as (Ho & Hl & Hc & Ha).
    assert (Hs1 : line_so_far (take 79 (s ++ [c])) st1).
    { rewrite ingest_char_sniff in Hrun1.
      set (st0 := with_GPS (gps_encode c (GPS st)) st) in *.
      assert (Hok0 : buffer_ok st0) by exact Hok.
      destruct (sniff_runs c st0 Hok0) as (line & _ & _ & Hsn).
      rewrite Hsn in Hrun1. apply Ascii.eqb_neq in Hn. rewrite Hn in Hrun1.
      injection Hrun1 as <-. apply buffered_line; [exact Hs | exact Hlen | exact Hd]. }
    destruct (IH _ st1 Hs1) as (st' & Hrun & Hs' & Ho' & Hl' & Hc' & Ha');
      [rewrite length_take; lia | exact Hbody' |].
    exists st'. cbn [ingest]. rewrite (bind_runs _ _ _ _ _ Hrun1).
    split; [exact Hrun|]. split; [|repeat split; congruence].
    replace (take 79 (s ++ c :: body)) with (take 79 (take 79 (s ++ [c]) ++ body));
      [exact Hs'|].
    replace (s ++ c :: body) with ((s ++ [c]) ++ body) by now rewrite <- app_assoc.
    destruct (Nat.le_gt_cases 79 (length (s ++ [c]))) as [Hge|Hlt].
    + rewrite (take_app_le (take 79 (s ++ [c])) body)
        by (rewrite length_take; lia).
      rewrite (take_app_le (s ++ [c]) body) by lia. apply take_idemp.
    + now rewrite (take_ge (s ++ [c])) by lia.
Qed.

Lemma take_take_app (n : nat) (l k : list ascii) :
  take n (take n l ++ k) = take n (l ++ k).
Proof.
  destruct (Nat.le_gt_cases n (length l)) as [Hge|Hlt].
  - rewrite (take_app_le (take n l) k) by (rewrite length_take; lia).
    rewrite (take_app_le l k) by lia. apply take_idemp.
  - now rewrite (take_ge l) by lia.
Qed.

(** X6.  Every character read goes to the parser, in the order read and once
    each, whether the line buffer keeps it or not. *)
Theorem ingest_feeds_parser chars : forall st : sketch gps,
  buffer_ok st ->
  exists st', ingest chars st = Some (tt, st') /\
    GPS st' = List.fold_left (fun g c => gps_encode c g) chars (GPS st).
Proof.
  induction chars as [|c chars IH]; intros st Hok.
  - exists st. split; reflexivity.
  - destruct (ingest_char_parser c st Hok) as (st1 & Hrun1 & Hok1 & Hg & _).
    destruct (IH st1 Hok1) as (st' & Hrun & Hg').
    exists st'. cbn [ingest List.fold_left].
    rewrite (bind_runs _ _ _ _ _ Hrun1), <- Hg. auto.
Qed.

(** X7.  A sentence that arrives whole, from its [$] to its line feed,
    decides the antenna status by what the buffer keeps of it: its first 79
    characters, up to a NUL if there is one.  ANTENNA in that part sets the
    flag (true exactly with OPEN in that part) and the time stamp; without
    it, also when it stands further back in the sentence, nothing changes.
    The index is back at 0 afterwards. *)
Theorem sentence_decides_status body (st : sketch gps) :
  buffer_ok st ->
  Forall (fun c => c <> dollar /\ c <> newline) body ->
  let line := seen (dollar :: body ++ [newline]) in
  exists st',
    ingest (dollar :: body ++ [newline]) st = Some (tt, st') /\
    idx st' = 0 /\
    c_str (txtBuf st') = Some line /\
    (contains "ANTENNA" line ->
       (antennaOpen st' = true <-> contains "OPEN" line) /\
       lastAntennaMsg st' = to_uint32 (millis_at st (millis_calls st))) /\
    (~ contains "ANTENNA" line ->
       antennaOpen st' = antennaOpen st /\
       lastAntennaMsg st' = lastAntennaMsg st).
Proof.
  intros Hok Hbody line.
  destruct (line_so_far_dollar st Hok) as (st1 & Hrun1 & Hs1).
  destruct (ingest_char_parser dollar st Hok) as (st1' & Hrun1' & _ & _ & Hq1).
  rewrite Hrun1 in Hrun1'. injection Hrun1' as <-.
  destruct Hq1 as (Ho1 & Hl1 & Hc1 & Ha1); [discriminate|].
  destruct (line_so_far_any body [dollar] st1 Hs1)
    as (st2 & Hrun2 & Hs2 & Ho2 & Hl2 & Hc2 & Ha2); [cbn; lia | exact Hbody |].
  set (s2 := take 79 ([dollar] ++ body)) in *.
  assert (Hlen2 : (length s2 <= 79)%nat) by (unfold s2; rewrite length_take; lia).
  pose proof Hs2 as (Hok2 & _).
  set (st20 := with_GPS (gps_encode newline (GPS st2)) st2).
  assert (Hok20 : buffer_ok st20) by exact Hok2.
  destruct (sniff_runs newline st20 Hok20) as (line' & Hline' & _ & Hsn).
  destruct (buffered_line s2 newline st20 Hs2 Hlen2) as (_ & _ & Htake & Hnul);
    [discriminate|].
  assert (Hseen : before_NUL (take 79 (s2 ++ [newline])) = line).
  { unfold s2, line, seen. rewrite take_take_app.
    now rewrite <- app_assoc. }
  rewrite (c_str_take_any _ _ Htake Hnul), Hseen in Hline'.
  assert (Heq : line' = line) by congruence. rewrite Heq in Hsn.
  clear Hline' Heq line'. cbn [Ascii.eqb newline Bool.eqb] in Hsn.
  exists (line_seen line (buffered newline st20)).
  destruct (line_seen_buffer line (buffered newline st20)) as [Hb Hi].
  split; [|split; [exact Hi|split]].
  - cbn [ingest]. rewrite (bind_runs _ _ _ _ _ Hrun1), ingest_app, Hrun2.
    cbn [ingest]. unfold bind at 1. rewrite ingest_char_sniff.
    fold st20. rewrite Hsn. reflexivity.
  - rewrite Hb, (c_str_take_any _ _ Htake Hnul). now rewrite Hseen.
  - assert (Hread : to_uint32 (millis_at st2 (millis_calls st2)) =
                    to_uint32 (millis_at st (millis_calls st)))
      by (rewrite Ha2, Hc2, Ha1, Hc1; reflexivity).
    unfold line_seen.
    destruct (to_bool (strstr line (list_ascii_of_string "ANTENNA"))) eqn:Hfound.
    + split; [|intros Hno; apply strstr_contains in Hfound; contradiction].
      intros _. split; [apply strstr_contains | exact Hread].
    + split; [intros Hyes; apply strstr_contains in Hyes; congruence|].
      intros _. split; [change (antennaOpen st2 = antennaOpen st)
                       | change (lastAntennaMsg st2 = lastAntennaMsg st)];
        congruence.
Qed.

End Sketch.

#[local] Existing Instance no_fix.

Lemma ingest_feeds_parser_witness :
  exists st', ingest overlong_body fresh = Some (tt, st') /\
    GPS st' = List.fold_left (fun g c => gps_encode c g) overlong_body (GPS fresh).
Proof.
  apply (ingest_feeds_parser overlong_body fresh).
  repeat split; vm_compute; congruence.
Defined.

Lemma sentence_decides_status_witness :
  let line := seen (dollar :: overlong_body ++ [newline]) in
  exists st',
    ingest (dollar :: overlong_body ++ [newline]) fresh = Some (tt, st') /\
    idx st' = 0 /\
    c_str (txtBuf st') = Some line /\
    (contains "ANTENNA" line ->
       (antennaOpen st' = true <-> contains "OPEN" line) /\
       lastAntennaMsg st' = to_uint32 (millis_at fresh (millis_calls fresh))) /\
    (~ contains "ANTENNA" line ->
       antennaOpen st' = antennaOpen fresh /\
       lastAntennaMsg st' = lastAntennaMsg fresh).
Proof.
  apply (sentence_decides_status overlong_body fresh).
  - repeat split; vm_compute; congruence.
  - repeat constructor; discriminate.
Defined.

(** ** The render pass, text by text *)

Lemma string_length_append s1 s2 :
  String.length (s1 ++ s2) = (String.length s1 + String.length s2)%nat.
Proof. induction s1 as [|c s1 IH]; cbn; [reflexivity | now rewrite IH]. Qed.

(** [snprintf] changes nothing in a text that fits. *)
Lemma snprintf_fits size s :
  (String.length s < size)%nat -> snprintf size s = s.
Proof.
  unfold snprintf. intros Hlen.
  assert (Hall : forall t m, (String.length t <= m)%nat -> substring 0 m t = t).
  { induction t as [|c t IH]; intros m Hm; [destruct m; reflexivity|].
    destruct m as [|m]; [cbn in Hm; lia|]. cbn [substring String.length] in *.
    f_equal. apply IH. lia. }
  apply Hall. lia.
Qed.

Lemma fmt_02d_length v :
  0 <= v < 256 ->
  (2 <= String.length (fmt_02d v) <= 3)%nat /\
  (v < 100 -> String.length (fmt_02d v) = 2%nat).
Proof.
  intros Hv.
  pose (chk := fun v : Z =>
    let n := String.length (fmt_02d v) in
    (2 <=? n)%nat && (n <=? 3)%nat && ((100 <=? v) || (n =? 2)%nat)).
  assert (Hchk : chk v = true).
  { revert v Hv. apply DebugFacts.byte_cases. vm_compute. reflexivity. }
  unfold chk in Hchk. cbv zeta in Hchk.
  apply andb_true_iff in Hchk as [Hchk H3]. apply andb_true_iff in Hchk as [H1 H2].
  apply Nat.leb_le in H1, H2. split; [lia|]. intros H100.
  apply orb_true_iff in H3 as [H3|H3]; [apply Z.leb_le in H3; lia|].
  now apply Nat.eqb_eq in H3.
Qed.

Lemma clock_text_length h m sec cs :
  0 <= h < 256 -> 0 <= m < 256 -> 0 <= sec < 256 -> 0 <= cs < 256 ->
  (String.length (clock_text h m sec cs) <= 15)%nat /\
  (h < 100 -> m < 100 -> sec < 100 -> cs < 100 ->
   String.length (clock_text h m sec cs) = 11%nat).
Proof.
  intros Hh Hm Hs Hc. unfold clock_text. rewrite !string_length_append.
  destruct (fmt_02d_length h Hh) as [? ?], (fmt_02d_length m Hm) as [? ?],
    (fmt_02d_length sec Hs) as [? ?], (fmt_02d_length cs Hc) as [? ?].
  cbn [String.length]. split; [lia|]. intros. 
  repeat match goal with Hx : _ < 100 -> _ |- _ => specialize (Hx ltac:(assumption)) end.
  lia.
Qed.

Section Render.

Context {gps : Type} `{TinyGPSPlus gps}.

Ltac proj_fields :=
  cbn [GPS antennaOpen lastAntennaMsg txtBuf idx lastUi counter oled serial
       millis_at millis_calls with_GPS with_antennaOpen with_lastAntennaMsg
       with_txtBuf with_idx with_lastUi with_counter with_oled with_serial
       with_millis_calls].

(** The branch with a fix, text by text. *)
Lemma draw_fix_texts hasTime hasLoc (st : sketch gps) :
  exists g t la lo,
    draw_fix hasTime hasLoc st =
    Some (tt, with_oled
                (oled st ++
                 [oled_setTextAlignment TEXT_ALIGN_LEFT; oled_drawString 0 0 t;
                  oled_drawString 0 12 la; oled_drawString 0 24 lo])
                (with_serial (serial st ++ [t; la; lo]) (with_GPS g st))) /\
    t = (if hasTime
         then snprintf 20
                (clock_text (to_uint8 (time_hour (GPS st)))
                   (to_uint8 (time_minute (GPS st)))
                   (to_uint8 (time_second (GPS st)))
                   (to_uint8 (time_centisecond (GPS st))))
         else "--:--:--.--"%string) /\
    (hasLoc = false -> la = "LAT: ----"%string /\ lo = "LON: ----"%string) /\
    (hasTime = false -> hasLoc = false -> g = GPS st).
Proof.
  unfold draw_fix. cbv [bind get modify display_call Serial_println ret].
  destruct hasTime, hasLoc;
    cbn [GPS oled serial with_GPS with_oled with_serial fst snd];
    do 4 eexists; (split; [rewrite <- !app_assoc; cbn [app]; reflexivity|]);
    (split; [reflexivity|]); split; try discriminate; auto.
Qed.

(** One render pass, call by call. *)
Lemma render_frame (st : sketch gps) :
  let hasTime := time_isValid (GPS st) in
  let hasLoc := location_isValid (GPS st) in
  let t2 := to_uint32 (millis_at st (S (millis_calls st))) in
  let t3 := to_uint32 (millis_at st (S (S (millis_calls st)))) in
  exists st' t la lo,
    render st = Some (tt, st') /\
    oled st' =
      oled st ++ oled_clear ::
      (if negb hasTime && negb hasLoc then searching_calls (counter st)
       else [oled_setTextAlignment TEXT_ALIGN_LEFT; oled_drawString 0 0 t;
             oled_drawString 0 12 la; oled_drawString 0 24 lo]) ++
      antenna_calls (antennaOpen st) t2 (lastAntennaMsg st) ++
      [oled_drawString 127 54 (uptime_text t3); oled_display] /\
    serial st' =
      serial st ++ (if negb hasTime && negb hasLoc then [] else [t; la; lo]) /\
    (negb hasTime && negb hasLoc = true -> GPS st' = GPS st) /\
    t = (if hasTime
         then snprintf 20
                (clock_text (to_uint8 (time_hour (GPS st)))
                   (to_uint8 (time_minute (GPS st)))
                   (to_uint8 (time_second (GPS st)))
                   (to_uint8 (time_centisecond (GPS st))))
         else "--:--:--.--"%string) /\
    (hasLoc = false -> la = "LAT: ----"%string /\ lo = "LON: ----"%string).
Proof.
  intros hasTime hasLoc t2 t3. unfold render.
  unfold bind at 1. cbn [millis]. unfold bind at 1. cbn [modify].
  unfold bind at 1. cbn [display_call modify].
  unfold bind at 1. cbn [get]. unfold bind at 1. cbn [get].
  cbn [GPS with_oled with_lastUi with_millis_calls].
  fold hasTime hasLoc.
  set (st0 := with_oled _ _).
  destruct (negb hasTime && negb hasLoc) eqn:Hsearch.
  - rewrite (bind_runs _ _ _ _ _ (draw_searching_runs st0)).
    rewrite (bind_runs _ _ _ _ _ (draw_antenna_runs _)).
    rewrite (bind_runs _ _ _ _ _ (draw_uptime_runs _)).
    apply andb_true_iff in Hsearch as [Ht Hl].
    apply negb_true_iff in Ht, Hl.
    eexists. exists "--:--:--.--"%string, "LAT: ----"%string, "LON: ----"%string.
    split; [reflexivity|].
    subst st0. proj_fields. rewrite <- !app_assoc, app_nil_r.
    split; [reflexivity|]. split; [reflexivity|]. split; [reflexivity|].
    rewrite Ht. auto.
  - destruct (draw_fix_texts hasTime hasLoc st0)
      as (g & t & la & lo & Hfix & Ht & Hl & _).
    rewrite (bind_runs _ _ _ _ _ Hfix).
    rewrite (bind_runs _ _ _ _ _ (draw_antenna_runs _)).
    rewrite (bind_runs _ _ _ _ _ (draw_uptime_runs _)).
    eexists. exists t, la, lo. split; [reflexivity|].
    subst st0. proj_fields. rewrite <- !app_assoc. cbn [app].
    split; [reflexivity|]. split; [reflexivity|].
    split; [discriminate|]. auto.
Qed.

Lemma texts_at_app x y l1 l2 :
  texts_at x y (l1 ++ l2) = texts_at x y l1 ++ texts_at x y l2.
Proof.
  induction l1 as [|c l1 IH]; [reflexivity|]. cbn [app texts_at].
  destruct c as [| |x' y' text| |]; try exact IH.
  destruct ((x' =? x) && (y' =? y)); [|exact IH]. cbn [app]. now rewrite IH.
Qed.

Lemma antenna_calls_texts open now last x y :
  x <> 127 -> texts_at x y (antenna_calls open now last) = [].
Proof.
  intros Hx. unfold antenna_calls. destruct (sub32 now last <? 5000);
    cbn [texts_at]; [|reflexivity].
  destruct (Z.eqb_spec 127 x); [lia | reflexivity].
Qed.

(** X8.  With a fix, a render pass prints three lines on Serial, and they
    are the texts it draws at (0, 0), (0, 12) and (0, 24); a time or a
    location that is not valid shows as dashes.  Without a fix it prints
    nothing, leaves the parser alone and draws the searching label. *)
Theorem render_prints_what_it_draws (st : sketch gps) :
  exists frame st',
    render st = Some (tt, st') /\
    oled st' = oled st ++ frame /\
    (if negb (time_isValid (GPS st)) && negb (location_isValid (GPS st))
     then serial st' = serial st /\ GPS st' = GPS st /\
          texts_at 0 10 frame = ["Searching GPS ..."%string]
     else exists t la lo,
          serial st' = serial st ++ [t; la; lo] /\
          texts_at 0 0 frame = [t] /\
          texts_at 0 12 frame = [la] /\
          texts_at 0 24 frame = [lo] /\
          (time_isValid (GPS st) = false -> t = "--:--:--.--"%string) /\
          (location_isValid (GPS st) = false ->
           la = "LAT: ----"%string /\ lo = "LON: ----"%string)).
Proof.
  destruct (render_frame st)
    as (st' & t & la & lo & Hrun & Holed & Hser & Hgps & Ht & Hl).
  eexists. exists st'. split; [exact Hrun|]. split; [exact Holed|].
  destruct (negb (time_isValid (GPS st)) && negb (location_isValid (GPS st))).
  - rewrite app_nil_r in Hser. split; [exact Hser|]. split; [auto|].
    change (oled_clear :: ?l) with ([oled_clear] ++ l).
    rewrite !texts_at_app, antenna_calls_texts by lia. reflexivity.
  - exists t, la, lo. split; [exact Hser|].
    change (oled_clear :: ?l) with ([oled_clear] ++ l).
    rewrite !texts_at_app, !antenna_calls_texts by lia.
    repeat split; try reflexivity; try (apply Hl; assumption).
    intros Hinv. rewrite Ht, Hinv. reflexivity.
Qed.

(** X9.  The time line is never cut by its 20-byte buffer: whatever the
    parser returns for hour, minute, second and centisecond (each a
    [uint8_t]), the text drawn is the whole of HH:MM:SS.CC, at most 15
    characters, and 11 when all four are below 100. *)
Theorem time_line_fits (st : sketch gps) :
  time_isValid (GPS st) = true ->
  let h := to_uint8 (time_hour (GPS st)) in
  let m := to_uint8 (time_minute (GPS st)) in
  let sec := to_uint8 (time_second (GPS st)) in
  let cs := to_uint8 (time_centisecond (GPS st)) in
  exists frame st',
    render st = Some (tt, st') /\
    oled st' = oled st ++ frame /\
    texts_at 0 0 frame = [clock_text h m sec cs] /\
    (String.length (clock_text h m sec cs) <= 15)%nat /\
    (h < 100 -> m < 100 -> sec < 100 -> cs < 100 ->
     String.length (clock_text h m sec cs) = 11%nat).
Proof.
  intros Hvalid h m sec cs.
  destruct (render_frame st)
    as (st' & t & la & lo & Hrun & Holed & _ & _ & Ht & _).
  rewrite Hvalid in Holed, Ht. cbn [negb andb] in Holed.
  fold h m sec cs in Ht.
  assert (Hr : forall v, 0 <= to_uint8 v < 256)
    by (intros v; apply Z.mod_pos_bound; reflexivity).
  destruct (clock_text_length h m sec cs (Hr _) (Hr _) (Hr _) (Hr _))
    as [Hlen Hlen11].
  rewrite snprintf_fits in Ht by lia.
  eexists. exists st'. split; [exact Hrun|]. split; [exact Holed|].
  split; [|split; assumption].
  change (oled_clear :: ?l) with ([oled_clear] ++ l).
  rewrite !texts_at_app, antenna_calls_texts by lia. rewrite Ht. reflexivity.
Qed.


(** X11.  Whatever alignment the display was left in, every string of a
    frame is drawn with the alignment of its side: right-aligned at the
    right edge (badge and uptime), left-aligned elsewhere. *)
Theorem frame_alignment (a : alignment) (st : sketch gps) :
  exists frame st',
    render st = Some (tt, st') /\
    oled st' = oled st ++ frame /\
    Forall (fun d => fst (fst d) = side_of (snd (fst d)))
      (strings_drawn a frame).
Proof.
  destruct (render_frame st) as (st' & t & la & lo & Hrun & Holed & _).
  eexists. exists st'. split; [exact Hrun|]. split; [exact Holed|].
  unfold antenna_calls, searching_calls.
  destruct (negb _ && negb _), (sub32 _ _ <? 5000);
    cbn [app strings_drawn]; repeat constructor.
Qed.

(** Reading characters takes at most one clock reading each. *)
Lemma ingest_calls_bound chars : forall st : sketch gps,
  buffer_ok st ->
  exists st', ingest chars st = Some (tt, st') /\
    (millis_calls st' <= millis_calls st + length chars)%nat.
Proof.
  induction chars as [|c chars IH]; intros st Hok.
  - exists st. split; [reflexivity | cbn; lia].
  - destruct (ingest_char_ok c st Hok) as (st1 & Hrun1 & Hok1).
    assert (Hc : (millis_calls st1 <= S (millis_calls st))%nat).
    { pose proof Hrun1 as Hrun. rewrite ingest_char_sniff in Hrun.
      apply (with_GPS_buffer_ok (gps_encode c (GPS st))) in Hok.
      destruct (sniff_runs c _ Hok) as (line & _ & _ & Hs). rewrite Hs in Hrun.
      injection Hrun as <-. unfold line_seen.
      destruct (Ascii.eqb c newline); [destruct (to_bool _)|]; cbn; lia. }
    destruct (IH st1 Hok1) as (st' & Hrun & Hc').
    exists st'. cbn [ingest length]. rewrite (bind_runs _ _ _ _ _ Hrun1).
    split; [exact Hrun | lia].
Qed.

(** X13.  [setup] waits 1050ms in all, and [lastUi] starts at 0: with a clock
    that has counted those waits, the first call of [loop] redraws, whatever
    it reads and whatever the parser reports, so the frame of [setup] is
    replaced at once. *)
Theorem first_loop_redraws (Vext : Z) (g : gps) (clk : nat -> Z) chars :
  (forall k, (k <= length chars)%nat ->
     Debug_GNSS.total_delay (board_events (setup Vext)) <= clk k < 2 ^ 32) ->
  exists st' frame,
    loop chars (after_setup Vext g clk) = Some (tt, st') /\
    oled st' =
      display_calls (setup Vext) ++ oled_clear :: frame ++ [oled_display].
Proof.
  intros Hclk.
  assert (Hdelay : Debug_GNSS.total_delay (board_events (setup Vext)) = 1050)
    by reflexivity.
  rewrite Hdelay in Hclk.
  set (st := after_setup Vext g clk).
  assert (Hok : buffer_ok st) by apply boot_buffer_ok.
  destruct (ingest_keeps_ui chars st Hok)
    as (st1 & Hrun1 & _ & Ho & Hl & _ & _ & Ha).
  destruct (ingest_calls_bound chars st Hok) as (st1' & Hrun1' & Hcalls).
  rewrite Hrun1 in Hrun1'. injection Hrun1' as <-.
  change (millis_calls st) with 0%nat in Hcalls.
  assert (Hpass : forall s : sketch gps, oled s = oled st ->
            exists st' frame, render s = Some (tt, st') /\
              oled st' = oled st ++ oled_clear :: frame ++ [oled_display]).
  { intros s Hs0. destruct (render_runs s) as (body & st' & Hrun & Holed & _).
    exists st'. eexists (body ++ antenna_calls _ _ _ ++ [oled_drawString 127 54 _]).
    split; [exact Hrun|]. rewrite Holed, Hs0, <- !app_assoc. reflexivity. }
  change (display_calls (setup Vext)) with (oled st).
  unfold loop. rewrite (bind_runs _ _ _ _ _ Hrun1), ui_update_runs.
  destruct (location_isUpdated (GPS st1) || time_isUpdated (GPS st1)).
  - exact (Hpass st1 Ho).
  - assert (Hdue : (1000 <=? sub32 (to_uint32 (millis_at st1 (millis_calls st1)))
                               (lastUi st1)) = true).
    { rewrite Hl, Ha. change (lastUi st) with 0. change (millis_at st) with clk.
      specialize (Hclk (millis_calls st1) ltac:(lia)).
      unfold sub32, to_uint32. rewrite Z.sub_0_r, Zmod_mod, Z.mod_small by lia.
      apply Z.leb_le. lia. }
    rewrite Hdue. exact (Hpass (with_millis_calls _ st1) Ho).
Qed.

End Render.


#[local] Existing Instance time_only.

Lemma time_line_fits_witness :
  let h := to_uint8 (time_hour (GPS fresh)) in
  let m := to_uint8 (time_minute (GPS fresh)) in
  let sec := to_uint8 (time_second (GPS fresh)) in
  let cs := to_uint8 (time_centisecond (GPS fresh)) in
  exists frame st',
    render (H := time_only) fresh = Some (tt, st') /\
    oled st' = oled fresh ++ frame /\
    texts_at 0 0 frame = [clock_text h m sec cs] /\
    (String.length (clock_text h m sec cs) <= 15)%nat /\
    (h < 100 -> m < 100 -> sec < 100 -> cs < 100 ->
     String.length (clock_text h m sec cs) = 11%nat).
Proof. apply (time_line_fits (H := time_only) fresh). reflexivity. Defined.

Lemma first_loop_redraws_witness :
  exists st' frame,
    loop (H := no_fix) [dollar; newline] (after_setup 36 tt steady_clock) =
      Some (tt, st') /\
    oled st' =
      display_calls (setup 36) ++ oled_clear :: frame ++ [oled_display].
Proof.
  apply (first_loop_redraws (H := no_fix) 36 tt steady_clock [dollar; newline]).
  intros k Hk. cbn in Hk. unfold steady_clock.
  change (Debug_GNSS.total_delay (board_events (setup 36))) with 1050. lia.
Defined.


End DisplayExtras.
